(** * Excel Mock Interviewer (app.py): grading rules, confidence classifier,
      tabular validator and report generation

    A shallow embedding of the deterministic core of [app.py].

    Conventions of the embedding:
    - Python [str] values are [string]s of 8-bit characters; the case
      conversions and the whitespace class are the ASCII ones, characters
      above 127 are left as they are.
    - Python [float] scores are exact rationals ([Q]).  Module [Binary64]
      computes every score a rule can return on binary64 numbers as well,
      and [produced_scores_agree] checks that the threshold tests of the
      classifier and of the report give the same answers on both.
    - The session dictionaries ([responses], [scores], [notes]) are finite
      maps keyed by the question id.
    - [try ... except Exception as e] is an error monad whose failure case
      carries the text of the exception. *)

From Stdlib Require Import QArith Qround Qminmax Qabs.
From Stdlib Require Import Ascii String List ZArith Lia Bool.
From Stdlib Require Import DecimalString Floats Uint63.
From Stdlib Require Import Lqa.
From stdpp Require Import gmap strings list.
Import ListNotations.

Local Open Scope list_scope.
Local Open Scope string_scope.

(* ===================================================================== *)
(** ** Python string primitives *)
(* ===================================================================== *)

Module Text.

(** The double-quote character, for literals that contain one. *)
Definition dq : string := String (ascii_of_nat 34) EmptyString.

(** [str.isspace] on one ASCII character: TAB, LF, VT, FF, CR,
    FS, GS, RS, US and SPACE.  It is the class of [\s] in [re] and the
    class removed by [str.strip()]. *)
Definition is_space (c : ascii) : bool :=
  let n := N_of_ascii c in
  ((9 <=? n) && (n <=? 13) || (28 <=? n) && (n <=? 32))%N.

Definition lower_ascii (c : ascii) : ascii :=
  let n := N_of_ascii c in
  if ((65 <=? n) && (n <=? 90))%N then ascii_of_N (n + 32) else c.

Definition upper_ascii (c : ascii) : ascii :=
  let n := N_of_ascii c in
  if ((97 <=? n) && (n <=? 122))%N then ascii_of_N (n - 32) else c.

Fixpoint smap (f : ascii -> ascii) (s : string) : string :=
  match s with
  | EmptyString => EmptyString
  | String c s' => String (f c) (smap f s')
  end.

(** [s.lower()] and [s.upper()] *)
Definition lower : string -> string := smap lower_ascii.
Definition upper : string -> string := smap upper_ascii.

(** [re.sub(r"\s+", "", s)]: every maximal run of whitespace is replaced
    by the empty string, the other characters are kept in order. *)
Fixpoint re_sub_ws (s : string) : string :=
  match s with
  | EmptyString => EmptyString
  | String c s' => if is_space c then re_sub_ws s' else String c (re_sub_ws s')
  end.

Fixpoint lstrip (s : string) : string :=
  match s with
  | EmptyString => EmptyString
  | String c s' => if is_space c then lstrip s' else s
  end.

Fixpoint rstrip (s : string) : string :=
  match s with
  | EmptyString => EmptyString
  | String c s' =>
      match rstrip s' with
      | EmptyString => if is_space c then EmptyString else String c EmptyString
      | r => String c r
      end
  end.

(** [s.strip()] *)
Definition strip (s : string) : string := rstrip (lstrip s).

(** [needle in hay] *)
Fixpoint str_in (needle hay : string) : bool :=
  String.prefix needle hay
  || match hay with
     | EmptyString => false
     | String _ hay' => str_in needle hay'
     end.

(** [s.startswith(p)] *)
Definition startswith (s p : string) : bool := String.prefix p s.

(** [sep.join(l)] *)
Fixpoint join (sep : string) (l : list string) : string :=
  match l with
  | [] => EmptyString
  | [x] => x
  | x :: l' => x ++ sep ++ join sep l'
  end.

(** [str(n)] for a non-negative integer *)
Definition str_of_nat (n : nat) : string :=
  NilZero.string_of_uint (Nat.to_uint n).

(** [str(z)] for an integer *)
Definition str_of_Z (z : Z) : string :=
  NilZero.string_of_int (Z.to_int z).

(** Every character of [s] is whitespace (the empty string included). *)
Fixpoint all_space (s : string) : bool :=
  match s with
  | EmptyString => true
  | String c s' => is_space c && all_space s'
  end.

(** Substring as a proposition: [hay = pre ++ needle ++ suf]. *)
Definition Substring (needle hay : string) : Prop :=
  exists pre suf, hay = pre ++ needle ++ suf.

End Text.

Import Text.

(* ===================================================================== *)
(** ** Question bank *)
(* ===================================================================== *)

Inductive qtype := objective | debug | concept | hands_on.

Record question := mkQ {
  id : string;
  type : qtype;
  prompt : string;
  example_answer : string;
  weight : Z
}.

Definition QUESTIONS : list question :=
  [ mkQ "q1" objective
      "Write an Excel formula that returns the SUM of column B only for rows where column A equals 'Sales'."
      ("=SUMIFS(B:B, A:A, " ++ dq ++ "Sales" ++ dq ++ ")") 2;
    mkQ "q2" objective
      "Give a formula to lookup value in C2 from a table where key is in column A, robust to column re-ordering."
      "XLOOKUP(C2, A:A, B:B)" 2;
    mkQ "q3" objective
      "Write an Excel formula to count how many cells in range D2:D100 contain text."
      ("=COUNTIF(D2:D100," ++ dq ++ "*" ++ dq ++ ")") 2;
    mkQ "q4" objective
      "Write a formula to calculate the average of numbers in column E, ignoring blanks."
      "=AVERAGE(E:E)" 2;
    mkQ "q5" objective
      "Write a formula that extracts the year from a date in cell F2."
      "=YEAR(F2)" 1;
    mkQ "q6" debug
      "You get #DIV/0! error in Excel. What are two common causes?"
      "Dividing by zero; blank denominator." 2;
    mkQ "q7" debug
      "Your SUM formula =SUM(A1:A10) is returning 0 even though numbers are visible. List likely causes."
      "Cells formatted as text; hidden characters/spaces; not actually numeric values." 3;
    mkQ "q8" concept
      "Explain difference between Absolute ($A$1) and Relative (A1) references in formulas."
      "Absolute stays fixed when copied; Relative shifts with cell position." 2;
    mkQ "q9" concept
      "Explain difference between VLOOKUP and XLOOKUP in Excel."
      "XLOOKUP is more flexible, can search both directions, no need for column index, handles errors." 3;
    mkQ "q10" hands_on
      "Upload a CSV/XLSX with Date and Sales columns. How would you create a chart to show monthly sales trend?"
      "Insert → Line chart, set X=Month(Date), Y=Sum(Sales)." 4 ].

(* ===================================================================== *)
(** ** Helpers and rule-based checks *)
(* ===================================================================== *)

(** [s or ""]: [None] and the empty string both give the empty string. *)
Definition or_empty (s : option string) : string :=
  match s with
  | Some x => x
  | None => EmptyString
  end.

Definition normalize (s : option string) : string :=
  upper (re_sub_ws (or_empty s)).

(** A grade: the score and the evidence notes. *)
Definition grading : Type := Q * list string.

Definition check_sumifs (ans : option string) : grading :=
  let a := normalize ans in
  if str_in "SUMIFS" a then (1.0%Q, ["Uses SUMIFS"])
  else if str_in "SUMIF" a then (0.9%Q, ["Uses SUMIF (acceptable)"])
  else (0.0%Q, ["SUMIF(S) not detected"]).

Definition check_xlookup (ans : option string) : grading :=
  let a := normalize ans in
  if str_in "XLOOKUP" a || (str_in "INDEX" a && str_in "MATCH" a)
  then (1.0%Q, ["Uses XLOOKUP / INDEX+MATCH"])
  else (0.0%Q, ["XLOOKUP / INDEX+MATCH not detected"]).

Definition check_countif (ans : option string) : grading :=
  let a := normalize ans in
  if str_in "COUNTIF" a || str_in "COUNTA" a
  then (1.0%Q, ["Uses COUNTIF/COUNTA"])
  else (0.0%Q, ["COUNTIF/COUNTA not detected"]).

Definition check_average (ans : option string) : grading :=
  let a := normalize ans in
  if str_in "AVERAGE" a || str_in "AVERAGEIF" a
  then (1.0%Q, ["Uses AVERAGE/AverageIf"])
  else (0.0%Q, ["AVERAGE not detected"]).

Definition check_year (ans : option string) : grading :=
  let a := normalize ans in
  if str_in "YEAR(" a then (1.0%Q, ["Uses YEAR()"])
  else (0.0%Q, ["YEAR() not detected"]).

(** [hits / d] with [d] a float literal: true division. *)
Definition hits_over (hits : nat) (d : Z) : Q :=
  (inject_Z (Z.of_nat hits) / inject_Z d)%Q.

Definition check_div0 (ans : option string) : grading :=
  let t := lower (or_empty ans) in
  let hits := 0%nat in
  let hits := if str_in "zero" t || str_in "divide" t then S hits else hits in
  let hits := if str_in "blank" t || str_in "empty" t then S hits else hits in
  (Qmin 1.0 (hits_over hits 2), ["matched " ++ str_of_nat hits ++ " causes"]).

Definition check_sum_zero (ans : option string) : grading :=
  let t := lower (or_empty ans) in
  let hits := 0%nat in
  let hits := if str_in "text" t then S hits else hits in
  let hits := if str_in "format" t || str_in "formatted" t then S hits else hits in
  let hits := if str_in "hidden" t || str_in "space" t then S hits else hits in
  (Qmin 1.0 (hits_over hits 3), ["matched " ++ str_of_nat hits ++ " reasons"]).

Definition pivot_keywords : list string :=
  ["pivot"; "chart"; "rows"; "columns"; "values"; "month"; "sum"; "line"].

Definition check_pivot_steps (ans : option string) : grading :=
  let t := lower (or_empty ans) in
  let hits := length (List.filter (fun w => str_in w t) pivot_keywords) in
  (Qmin 1.0 (hits_over hits 4),
   ["matched " ++ str_of_nat hits ++ " chart/pivot keywords"]).

(** [any(w in t for w in ws)] *)
Definition any_in (ws : list string) (t : string) : bool :=
  existsb (fun w => str_in w t) ws.

(** The grade mapping. *)
Definition grade (q : question) (answer : option string) : grading :=
  if String.eqb (id q) "q1" then check_sumifs answer
  else if String.eqb (id q) "q2" then check_xlookup answer
  else if String.eqb (id q) "q3" then check_countif answer
  else if String.eqb (id q) "q4" then check_average answer
  else if String.eqb (id q) "q5" then check_year answer
  else if String.eqb (id q) "q6" then check_div0 answer
  else if String.eqb (id q) "q7" then check_sum_zero answer
  else if String.eqb (id q) "q8" then
    let t := lower (or_empty answer) in
    let ok := any_in ["absolute"; "relative"; "$a$1"; "a1"] t in
    if ok then (1.0%Q, ["Explains absolute vs relative"])
    else (0.0%Q, ["Does not explain absolute vs relative"])
  else if String.eqb (id q) "q9" then
    let t := lower (or_empty answer) in
    let ok := any_in ["xlookup"; "vlookup"; "index"; "match"; "both directions"] t in
    if ok then (1.0%Q, ["Mentions key differences"])
    else (0.0%Q, ["Does not mention differences"])
  else if String.eqb (id q) "q10" then check_pivot_steps answer
  else (0.0%Q, ["no rule"]).

(* ===================================================================== *)
(** ** Human readable feedback templates *)
(* ===================================================================== *)

(** [l.append(x)] *)
Definition append {A} (l : list A) (x : A) : list A := (l ++ [x])%list.

Definition feedback_from_notes (qid : string) (notes : list string) : string :=
  let tips : list string := [] in
  let joined := lower (join " " notes) in
  let tips :=
    if str_in "sumifs" joined
    then append tips "Good: you used SUMIFS. Tip: consider using Table references for robustness."
    else tips in
  let tips :=
    if str_in "sumif" joined && negb (str_in "sumifs" joined)
    then append tips "Partial: SUMIF works for single conditions; SUMIFS handles multiple conditions."
    else tips in
  let tips :=
    if str_in "xlookup" joined || str_in "index" joined
    then append tips "Good: using XLOOKUP/INDEX+MATCH is robust to column re-ordering."
    else tips in
  let tips :=
    if str_in "countif" joined || str_in "counta" joined
    then append tips "COUNTIF / COUNTA are good for counting text/non-empty cells."
    else tips in
  let tips :=
    if str_in "average" joined
    then append tips "AVERAGE ignores blanks; AVERAGEIF can help with conditions."
    else tips in
  let tips :=
    if str_in "year" joined
    then append tips "YEAR() extracts year from dates — useful for grouping by year."
    else tips in
  let tips :=
    if str_in "div0" joined || str_in "divide" joined
    then append tips "Check denominators and handle zero or blank cases (IFERROR or conditional checks)."
    else tips in
  let tips :=
    if str_in "pivot" joined || str_in "chart" joined
    then append tips "Good: use PivotTables or Group by Month to summarize time-series data."
    else tips in
  let tips :=
    match tips with
    | [] =>
        if startswith qid "q1" || startswith qid "q2" || startswith qid "q3"
           || startswith qid "q4" || startswith qid "q5"
        then append tips "If unsure, include the exact formula syntax (e.g., =SUMIFS(...))."
        else append tips "Try to mention concrete functions or steps (keywords help the grader)."
    | _ => tips
    end in
  join " " (firstn 2 tips).

(* ===================================================================== *)
(** ** Confidence calculation *)
(* ===================================================================== *)

Inductive confidence := High | Medium | Low.

Definition confidence_label (score : Q) : confidence :=
  if Qle_bool 0.8 score then High
  else if Qle_bool 0.4 score then Medium
  else Low.

(* ===================================================================== *)
(** ** Session state and its handlers *)
(* ===================================================================== *)

(** [st.session_state]: the fields the grading flow and the report read and
    write.  The timestamp, the candidate name, the intro flag and the upload
    preview play no part in grading and are left out. *)
Record session := mkSession {
  started : bool;
  current_q : nat;
  responses : gmap string string;
  scores : gmap string Q;
  notes : gmap string (list string)
}.

(** Session state init *)
Definition init_session : session :=
  mkSession false 0 ∅ ∅ ∅.

(** The [Start / Reset] button *)
Definition start_reset (st : session) : session :=
  mkSession true 0 ∅ ∅ ∅.

(** Truthiness of the optional pivot note: [None] and the empty string
    are false. *)
Definition truthy (s : option string) : bool :=
  match s with
  | Some (String _ _) => true
  | _ => false
  end.

(** The [Submit] button on question [q] with the text [answer]; [pivot_note]
    is the note of the tabular validator when a file was uploaded in this
    step. *)
Definition submit (q : question) (answer : string) (pivot_note : option string)
    (st : session) : session :=
  let '(score, ns) := grade q (Some answer) in
  let ns :=
    match type q with
    | hands_on => if truthy pivot_note then (ns ++ [or_empty pivot_note])%list else ns
    | _ => ns
    end in
  mkSession (started st) (current_q st + 1)
    (<[id q := answer]> (responses st))
    (<[id q := score]> (scores st))
    (<[id q := ns]> (notes st)).

(** The [Skip] button on question [q] *)
Definition skip (q : question) (st : session) : session :=
  mkSession (started st) (current_q st + 1)
    (<[id q := EmptyString]> (responses st))
    (<[id q := 0.0%Q]> (scores st))
    (<[id q := ["skipped"]]> (notes st)).

(** One user action of the main interview flow. *)
Inductive action :=
| Start
| Submit (answer : string) (pivot_note : option string)
| Skip.

(** The question on screen: [QUESTIONS[idx]] when the interview runs and
    [idx < len(QUESTIONS)]. *)
Definition current_question (st : session) : option question :=
  if started st then nth_error QUESTIONS (current_q st) else None.

Definition handle (st : session) (a : action) : session :=
  match a with
  | Start => start_reset st
  | Submit answer pivot_note =>
      match current_question st with
      | Some q => submit q answer pivot_note st
      | None => st
      end
  | Skip =>
      match current_question st with
      | Some q => skip q st
      | None => st
      end
  end.

Definition run (acts : list action) : session :=
  fold_left handle acts init_session.

(* ===================================================================== *)
(** ** Review panel and final report *)
(* ===================================================================== *)

Record review_item := mkReview {
  r_question : string;
  r_answer : string;
  r_notes : list string
}.

Record report := mkReport {
  review_queue : list review_item;
  strengths : list string;
  weaknesses : list (string * string)
}.

(** [dict.get(key, default)] *)
Definition get {A} (m : gmap string A) (k : string) (d : A) : A :=
  match m !! k with
  | Some v => v
  | None => d
  end.

(** [key in dict] *)
Definition has_key {A} (m : gmap string A) (k : string) : bool :=
  match m !! k with
  | Some _ => true
  | None => false
  end.

(** Strict comparison of scores. *)
Definition Qlt_bool (x y : Q) : bool := negb (Qle_bool y x).

(** The body of [for q in QUESTIONS] in the review panel. *)
Definition report_step (st : session) (r : report) (q : question) : report :=
  let qid := id q in
  if has_key (responses st) qid then
    let ans := get (responses st) qid EmptyString in
    let score := get (scores st) qid 0.0%Q in
    let ns := get (notes st) qid [] in
    let friendly := feedback_from_notes qid ns in
    let strengths :=
      if Qle_bool 0.8 score then append (strengths r) (prompt q) else strengths r in
    let weaknesses :=
      if Qle_bool score 0.4 then append (weaknesses r) (prompt q, friendly)
      else weaknesses r in
    let review_queue :=
      if Qlt_bool score 0.4
      then append (review_queue r) (mkReview (prompt q) ans ns)
      else review_queue r in
    mkReport review_queue strengths weaknesses
  else r.

Definition build_report_of (qs : list question) (st : session) : report :=
  fold_left (report_step st) qs (mkReport [] [] []).

Definition build_report : session -> report := build_report_of QUESTIONS.

(** [round(x)] to the nearest integer, ties to even. *)
Definition round_half_even (x : Q) : Z :=
  let f := Qfloor x in
  match Qcompare (x - inject_Z f) (1 # 2) with
  | Lt => f
  | Gt => (f + 1)%Z
  | Eq => if Z.even f then f else (f + 1)%Z
  end.

(** [round(x, 1)] *)
Definition round1 (x : Q) : Q :=
  (inject_Z (round_half_even (x * 10)) / 10)%Q.

(** [sum(q["weight"] for q in qs)] *)
Definition total_w_of (qs : list question) : Z :=
  fold_left (fun acc q => (acc + weight q)%Z) qs 0%Z.

(** [sum(scores.get(q["id"], 0.0) * q["weight"] for q in qs)] *)
Definition score_sum_of (qs : list question) (st : session) : Q :=
  fold_left
    (fun acc q => (acc + get (scores st) (id q) 0.0 * inject_Z (weight q))%Q)
    qs 0%Q.

(** [round(100 * (total / total_w), 1) if total_w else 0.0] *)
Definition overall_of (qs : list question) (st : session) : Q :=
  let total_w := total_w_of qs in
  let total := score_sum_of qs st in
  if (total_w =? 0)%Z then 0.0%Q
  else round1 (100 * (total / inject_Z total_w)).

(** The overall score of the header badge, which is the one the sidebar
    transcript exports: a function of the session state as the header reads
    it, at the top of a script run. *)
Definition header_overall (st : session) : Q :=
  if decide (responses st = ∅) then 0.0%Q else overall_of QUESTIONS st.

(** The overall score of the final report, which is the one the report
    transcript exports: a function of the session state as the review panel
    reads it, after the buttons of the run are handled.  The panel is
    rendered only when [responses] is not empty. *)
Definition report_overall (st : session) : option Q :=
  if decide (responses st = ∅) then None else Some (overall_of QUESTIONS st).

(* ===================================================================== *)
(** ** Hands-on pivot validation *)
(* ===================================================================== *)

(** The result of a computation that may raise: [Raise e] carries the text
    [str(e)] of the exception. *)
Inductive exc (A : Type) : Type :=
| Ok (a : A)
| Raise (e : string).

Arguments Ok {A} a.
Arguments Raise {A} e.

#[global] Instance exc_bind : MBind exc := fun A B k m =>
  match m with
  | Ok a => k a
  | Raise e => Raise e
  end.

(** [[f(c) for c in l]] with an [f] that may raise. *)
Fixpoint map_exc {A B} (f : A -> exc B) (l : list A) : exc (list B) :=
  match l with
  | [] => Ok []
  | a :: l' => b ← f a; bs ← map_exc f l'; Ok (b :: bs)
  end.

(** [for x in l: acc = step(acc, x)] with a [step] that may raise. *)
Fixpoint for_exc {A S} (step : S -> A -> exc S) (l : list A) (s : S) : exc S :=
  match l with
  | [] => Ok s
  | a :: l' => s' ← step s a; for_exc step l' s'
  end.

(** A column label of a dataframe.  A CSV header gives text labels; a
    spreadsheet header cell that holds a number gives an integer label. *)
Inductive label :=
| LStr (s : string)
| LInt (z : Z).

(** [c.strip().lower()]: an integer has no method [strip]. *)
Definition strip_lower (c : label) : exc string :=
  match c with
  | LStr s => Ok (lower (strip s))
  | LInt _ => Raise "'int' object has no attribute 'strip'"
  end.

(** [str(c)], and [str(None)], as the f-string prints them. *)
Definition str_of_label (c : label) : string :=
  match c with
  | LStr s => s
  | LInt z => str_of_Z z
  end.

Definition str_of_col (c : option label) : string :=
  match c with
  | Some l => str_of_label l
  | None => "None"
  end.

Definition is_date_name (lc : string) : bool := str_in "date" lc.

Definition is_sales_name (lc : string) : bool :=
  str_in "sales" lc || str_in "amount" lc || str_in "revenue" lc.

(** The body of [for c in df.columns]: the pair is [(date_col, sales_col)]. *)
Definition find_step (st : option label * option label) (c : label)
  : exc (option label * option label) :=
  let '(date_col, sales_col) := st in
  lc ← strip_lower c;
  let date_col := if is_date_name lc then Some c else date_col in
  let sales_col := if is_sales_name lc then Some c else sales_col in
  Ok (date_col, sales_col).

(** The column discovery loop, from [date_col = None; sales_col = None]. *)
Definition find_columns (columns : list label) : exc (option label * option label) :=
  for_exc find_step columns (None, None).

(** The dataframe and the pandas operations the validator calls.  Each may
    raise; what they compute is pandas' business. *)
Class Pandas := {
  DataFrame : Type;
  Monthly : Type;
  (** [df.columns] *)
  columns : DataFrame -> list label;
  (** [df2 = df.copy(); df2[c] = pd.to_datetime(df2[c], errors="coerce")] *)
  to_datetime : DataFrame -> label -> exc DataFrame;
  (** [df2[c].isna().all()] *)
  isna_all : DataFrame -> label -> exc bool;
  (** [df2[c] = pd.to_numeric(df2[c], errors="coerce")] *)
  to_numeric : DataFrame -> label -> exc DataFrame;
  (** [df2["month"] = df2[d].dt.to_period("M").dt.to_timestamp()] followed by
      [df2.groupby("month")[s].sum().reset_index().sort_values("month")] *)
  monthly_sums : DataFrame -> label -> label -> exc Monthly;
  (** [len(monthly)] *)
  len : Monthly -> nat;
  (** [str(monthly.iloc[0][s])] *)
  first_total : Monthly -> label -> exc string
}.

Section Validator.

Context `{Pandas}.

Definition outcome : Type := bool * string * option Monthly.

(** The body of the [try] block. *)
Definition validate_body (df : DataFrame) : exc outcome :=
  cols ← map_exc strip_lower (columns df);
  '(date_col, sales_col) ← find_columns (columns df);
  match date_col, sales_col with
  | Some d, Some s =>
      df2 ← to_datetime df d;
      all_nat ← isna_all df2 d;
      if all_nat : bool then
        Ok (false, "All date values could not be parsed.", None)
      else
        df2 ← to_numeric df2 s;
        monthly ← monthly_sums df2 d s;
        sample ← (if (0 <? len monthly)%nat then first_total monthly s
                   else Ok "N/A");
        Ok (true,
            "Pivot OK — found " ++ str_of_nat (len monthly)
            ++ " months; sample total for first month: " ++ sample,
            Some monthly)
  | _, _ =>
      Ok (false,
          "Missing columns: date_col=" ++ str_of_col date_col
          ++ ", sales_col=" ++ str_of_col sales_col,
          None)
  end.

(** [try: ... except Exception as e: return False, f"Pivot validation
    error: {e}", None] *)
Definition pivot_validate_dataframe (df : DataFrame) : outcome :=
  match validate_body df with
  | Ok r => r
  | Raise e => (false, "Pivot validation error: " ++ e, None)
  end.

End Validator.

(** The simplest dataframe for a closed example: a header row and no data
    row.  Every column is empty, so the conversions leave the frame as it is,
    [isna().all()] is true and the aggregate has no month. *)
#[local] Instance header_only : Pandas := {|
  DataFrame := list label;
  Monthly := unit;
  columns := fun df => df;
  to_datetime := fun df _ => Ok df;
  isna_all := fun _ _ => Ok true;
  to_numeric := fun df _ => Ok df;
  monthly_sums := fun _ _ _ => Ok tt;
  len := fun _ => 0%nat;
  first_total := fun _ _ => Ok "N/A"
|}.

(* ===================================================================== *)
(** ** Vocabulary of the properties *)
(* ===================================================================== *)

(** A grade as the data model has it: a score in [[0,1]] and at least one
    note. *)
Definition well_formed (g : grading) : Prop :=
  (0 <= fst g /\ fst g <= 1)%Q /\ (1 <= length (snd g))%nat.

(** The report in the words of its description: which questions of the bank
    enter each list, and with what. *)
Definition answered (st : session) (q : question) : bool :=
  has_key (responses st) (id q).

Definition score_of (st : session) (q : question) : Q :=
  get (scores st) (id q) 0.0%Q.

Definition is_strong (st : session) (q : question) : bool :=
  answered st q && Qle_bool 0.8 (score_of st q).

Definition is_weak (st : session) (q : question) : bool :=
  answered st q && Qle_bool (score_of st q) 0.4.

Definition is_flagged (st : session) (q : question) : bool :=
  answered st q && Qlt_bool (score_of st q) 0.4.

Definition is_low (c : confidence) : bool :=
  match c with
  | Low => true
  | _ => false
  end.

Definition is_low_confidence (st : session) (q : question) : bool :=
  answered st q && is_low (confidence_label (score_of st q)).

Definition weak_entry (st : session) (q : question) : string * string :=
  (prompt q, feedback_from_notes (id q) (get (notes st) (id q) [])).

Definition review_entry (st : session) (q : question) : review_item :=
  mkReview (prompt q) (get (responses st) (id q) EmptyString)
    (get (notes st) (id q) []).

(** Every handler writes the three dictionaries under the same key. *)
Definition consistent (st : session) : Prop :=
  dom (responses st) = dom (scores st) /\ dom (scores st) = dom (notes st).

(** The overall score in the words of its description: both sums range over
    the questions with a recorded grade. *)
Definition has_grade (st : session) (q : question) : bool :=
  has_key (scores st) (id q).

Definition sumQ (l : list Q) : Q := fold_right Qplus 0%Q l.

Definition sumZ (l : list Z) : Z := fold_right Z.add 0%Z l.

Definition graded_score_sum (qs : list question) (st : session) : Q :=
  sumQ (map (fun q => (score_of st q * inject_Z (weight q))%Q)
          (List.filter (has_grade st) qs)).

Definition graded_weight (qs : list question) (st : session) : Z :=
  sumZ (map weight (List.filter (has_grade st) qs)).

Definition claimed_overall (qs : list question) (st : session) : Q :=
  (100 * (graded_score_sum qs st / inject_Z (graded_weight qs st)))%Q.

(** A session in which only the first question has been answered, and
    answered well. *)
Definition first_answer_only : session :=
  run [Start; Submit "=SUMIFS(B:B, A:A, x)" None].

(** Column discovery in the words of its description: a column name
    contains a word case-insensitively when its lowercased name does. *)
Definition is_text (c : label) : bool :=
  match c with
  | LStr _ => true
  | LInt _ => false
  end.

Definition name_contains (w : string) (c : label) : bool :=
  match c with
  | LStr s => str_in w (lower s)
  | LInt _ => false
  end.

Definition is_date_column (c : label) : bool := name_contains "date" c.

Definition is_sales_column (c : label) : bool :=
  name_contains "sales" c || name_contains "amount" c || name_contains "revenue" c.

Definition first_match (p : label -> bool) (cols : list label) : option label :=
  List.find p cols.

Definition last_match (p : label -> bool) (cols : list label) : option label :=
  List.find p (rev cols).

(** [w] does not end with whitespace. *)
Fixpoint ends_visible (w : string) : bool :=
  match w with
  | EmptyString => true
  | String a EmptyString => negb (is_space a)
  | String a w' => ends_visible w'
  end.

(** [w] is not empty and neither starts nor ends with whitespace. *)
Definition visible_word (w : string) : bool :=
  match w with
  | EmptyString => false
  | String a _ => negb (is_space a) && ends_visible w
  end.

(** The first option unless it is [None]. *)
Definition or_else {A} (x y : option A) : option A :=
  match x with
  | Some _ => x
  | None => y
  end.

(* ===================================================================== *)
(** ** Scores as binary64 numbers *)
(* ===================================================================== *)

(** The scores the rules can return and the classifier, computed on IEEE 754
    binary64 numbers the way Python computes them, each paired with the
    rational the rest of the development uses for it. *)
Module Binary64.

Local Set Warnings "-inexact-float".

Definition of_nat (n : nat) : float := PrimFloat.of_uint63 (Uint63.of_Z (Z.of_nat n)).

(** [min(1.0, x)]: the first argument unless the second is smaller. *)
Definition min1 (x : float) : float :=
  if (x <? 1.0)%float then x else 1.0%float.

Definition confidence_label64 (score : float) : confidence :=
  if (0.8 <=? score)%float then High
  else if (0.4 <=? score)%float then Medium
  else Low.

(** [min(1.0, hits/d)] in both number systems. *)
Definition capped (d : nat) (hits : nat) : float * Q :=
  (min1 (of_nat hits / of_nat d)%float, Qmin 1.0 (hits_over hits (Z.of_nat d))).

(** The constants of the formula rules, then hits/2, hits/3 and hits/4 for
    every possible number of hits. *)
Definition produced : list (float * Q) :=
  ([(1.0%float, 1.0%Q); (0.9%float, 0.9%Q); (0.0%float, 0.0%Q)]
   ++ map (capped 2) (seq 0 3)
   ++ map (capped 3) (seq 0 4)
   ++ map (capped 4) (seq 0 9))%list.

(** The tests the report applies to a score, in both number systems. *)
Definition same_tests (p : float * Q) : Prop :=
  let '(f, q) := p in
  confidence_label64 f = confidence_label q
  /\ (0.8 <=? f)%float = Qle_bool 0.8 q
  /\ (f <=? 0.4)%float = Qle_bool q 0.4
  /\ (f <? 0.4)%float = Qlt_bool q 0.4.

End Binary64.

(* ===================================================================== *)
(** ** Vocabulary of the further properties *)
(* ===================================================================== *)

(** The ids of the formula questions, graded on the normalized answer. *)
Definition formula_ids : list string := ["q1"; "q2"; "q3"; "q4"; "q5"].

(** The ids of the bank, in order. *)
Definition bank_ids : list string := map id QUESTIONS.

(** The eight values a score can take. *)
Definition score_values : list Q :=
  [0; 1 # 4; 1 # 3; 1 # 2; 2 # 3; 3 # 4; 9 # 10; 1]%Q.

(** The number of cause groups, of reasons and of chart keywords an answer
    hits: the [hits] counters of the three keyword rules. *)
Definition div0_hits (ans : option string) : nat :=
  let t := lower (or_empty ans) in
  (if str_in "zero" t || str_in "divide" t then 1 else 0)
  + (if str_in "blank" t || str_in "empty" t then 1 else 0).

Definition sum_zero_hits (ans : option string) : nat :=
  let t := lower (or_empty ans) in
  (if str_in "text" t then 1 else 0)
  + (if str_in "format" t || str_in "formatted" t then 1 else 0)
  + (if str_in "hidden" t || str_in "space" t then 1 else 0).

Definition pivot_hits (ans : option string) : nat :=
  length (List.filter (fun w => str_in w (lower (or_empty ans))) pivot_keywords).

(** A session that submits the example answer of every question. *)
Definition example_run : list action :=
  Start :: map (fun q => Submit (example_answer q) None) QUESTIONS.

(** The words the feedback templates look for in the notes. *)
Definition feedback_keywords : list string :=
  ["sumifs"; "sumif"; "xlookup"; "index"; "countif"; "counta"; "average";
   "year"; "div0"; "divide"; "pivot"; "chart"].

(** The two fallback tips. *)
Definition formula_tip : string :=
  "If unsure, include the exact formula syntax (e.g., =SUMIFS(...)).".

Definition generic_tip : string :=
  "Try to mention concrete functions or steps (keywords help the grader).".

(** An action that answers the question on screen: Submit or Skip. *)
Definition is_answer (a : action) : bool :=
  match a with
  | Start => false
  | _ => true
  end.

(** The questions already put to the candidate. *)
Definition asked (st : session) : list question :=
  firstn (current_q st) QUESTIONS.

(** What every reachable session satisfies: the index stays within the bank,
    the recorded responses are those of the questions asked so far, and
    every recorded score is one a rule (or Skip) can produce. *)
Definition well_run (st : session) : Prop :=
  (current_q st <= length QUESTIONS)%nat
  /\ (forall k : string,
         is_Some (responses st !! k) <-> In k (map id (asked st)))
  /\ (forall (k : string) (v : Q),
         scores st !! k = Some v -> In v (map snd Binary64.produced)).

(** [Some _] as a boolean. *)
Definition is_some {A} (x : option A) : bool :=
  match x with
  | Some _ => true
  | None => false
  end.

(** What a successful result of the validator looks like, and a failed
    one. *)
Definition is_success `{Pandas} (r : outcome) : Prop :=
  fst (fst r) = true /\ is_some (snd r) = true
  /\ String.prefix "Pivot OK" (snd (fst r)) = true.

Definition is_failure `{Pandas} (r : outcome) : Prop :=
  fst (fst r) = false /\ snd r = None
  /\ (0 < String.length (snd (fst r)))%nat.

(** A lowercase ASCII letter. *)
Definition is_lower_letter (c : ascii) : bool :=
  let n := N_of_ascii c in ((97 <=? n) && (n <=? 122))%N.

(* ===================================================================== *)
(** * Properties *)
(* ===================================================================== *)

(** ** Strings *)

Section TextFacts.

Lemma prefix_app (n h : string) :
  String.prefix n h = true <-> exists suf, h = n ++ suf.
Proof.
  revert h. induction n as [|c n IH]; intros h.
  - split; [intros _; exists h; reflexivity | intros _; destruct h; reflexivity].
  - destruct h as [|c' h]; simpl.
    + split; [discriminate | intros [suf H]; discriminate H].
    + destruct (ascii_dec c c') as [->|Hne].
      * rewrite IH. split; intros [suf H]; exists suf.
        -- now rewrite H.
        -- now inversion H.
      * split; [discriminate | intros [suf H]; inversion H; congruence].
Qed.


Lemma str_in_nil (n : string) :
  str_in n EmptyString = String.prefix n EmptyString.
Proof. unfold str_in. apply orb_false_r. Qed.

Lemma str_in_cons (n : string) (c : ascii) (h : string) :
  str_in n (String c h) = String.prefix n (String c h) || str_in n h.
Proof. reflexivity. Qed.

Lemma str_in_spec (n h : string) : str_in n h = true <-> Substring n h.
Proof.
  unfold Substring. induction h as [|c h IH].
  - rewrite str_in_nil, prefix_app. split.
    + intros [suf H]. exists EmptyString, suf. exact H.
    + intros [[|c pre] [suf H]]; [exists suf; exact H | discriminate H].
  - rewrite str_in_cons, orb_true_iff, prefix_app, IH. split.
    + intros [[suf H] | [pre [suf H]]].
      * exists EmptyString, suf. exact H.
      * exists (String c pre), suf. simpl. now rewrite H.
    + intros [[|c' pre] [suf H]].
      * left. exists suf. exact H.
      * right. exists pre, suf. now inversion H.
Qed.

Lemma str_in_false (n h : string) : str_in n h = false <-> ~ Substring n h.
Proof.
  rewrite <- str_in_spec. destruct (str_in n h); intuition congruence.
Qed.

Lemma is_space_lower (c : ascii) : is_space (lower_ascii c) = is_space c.
Proof. destruct c as [[] [] [] [] [] [] [] []]; reflexivity. Qed.

Lemma all_space_lower (s : string) : all_space (lower s) = all_space s.
Proof.
  induction s as [|c s IH]; simpl; [reflexivity|].
  fold (lower s). now rewrite is_space_lower, IH.
Qed.

Lemma re_sub_ws_all_space (s : string) :
  all_space s = true -> re_sub_ws s = EmptyString.
Proof.
  induction s as [|c s IH]; simpl; [reflexivity|].
  intros [Hc Hs]%andb_true_iff. rewrite Hc. auto.
Qed.

(** Whitespace never holds a word that starts with a visible character. *)
Lemma str_in_all_space (c : ascii) (n h : string) :
  is_space c = false -> all_space h = true -> str_in (String c n) h = false.
Proof.
  intros Hc. induction h as [|c' h IH]; simpl; [reflexivity|].
  intros [Hc' Hh]%andb_true_iff.
  destruct (ascii_dec c c') as [->|Hne]; [congruence|].
  simpl. auto.
Qed.

(** [re.sub] leaves no whitespace behind. *)
Lemma re_sub_ws_no_space (s : string) (c : ascii) :
  is_space c = true -> ~ Substring (String c EmptyString) (re_sub_ws s).
Proof.
  intros Hc. rewrite <- str_in_false.
  induction s as [|c' s IH]; simpl; [reflexivity|].
  destruct (is_space c') eqn:Hc'; [exact IH|].
  simpl. destruct (ascii_dec c c') as [->|Hne]; [congruence|]. exact IH.
Qed.

End TextFacts.

(** ** Grading rules *)

Ltac qconst := unfold Qle, Qlt, Qeq; simpl; lia.

Section GradingFacts.

Lemma hits_over_nonneg (hits : nat) (d : Z) :
  (0 < d)%Z -> (0 <= hits_over hits d)%Q.
Proof.
  intros Hd. unfold hits_over. apply Qle_shift_div_l.
  - unfold Qlt. simpl. lia.
  - rewrite Qmult_0_l. unfold Qle. simpl. lia.
Qed.

Lemma capped_range (x : Q) :
  (0 <= x)%Q -> (0 <= Qmin 1.0 x /\ Qmin 1.0 x <= 1)%Q.
Proof.
  intros Hx. split.
  - apply Q.min_glb; [qconst | exact Hx].
  - apply Qle_trans with (1.0)%Q; [apply Q.le_min_l | qconst].
Qed.

Lemma normalize_blank (ans : option string) :
  all_space (or_empty ans) = true -> normalize ans = EmptyString.
Proof. intros H. unfold normalize. now rewrite re_sub_ws_all_space. Qed.

Lemma lower_blank (ans : option string) :
  all_space (or_empty ans) = true -> all_space (lower (or_empty ans)) = true.
Proof. now rewrite all_space_lower. Qed.

Ltac split_ifs :=
  repeat match goal with
         | |- context [if ?b then _ else _] => destruct b
         end.

Ltac constant_grade := split; [split; qconst | simpl; lia].

Lemma check_sumifs_wf ans : well_formed (check_sumifs ans).
Proof. unfold check_sumifs. split_ifs; constant_grade. Qed.

Lemma check_xlookup_wf ans : well_formed (check_xlookup ans).
Proof. unfold check_xlookup. split_ifs; constant_grade. Qed.

Lemma check_countif_wf ans : well_formed (check_countif ans).
Proof. unfold check_countif. split_ifs; constant_grade. Qed.

Lemma check_average_wf ans : well_formed (check_average ans).
Proof. unfold check_average. split_ifs; constant_grade. Qed.

Lemma check_year_wf ans : well_formed (check_year ans).
Proof. unfold check_year. split_ifs; constant_grade. Qed.

Ltac capped_grade :=
  split; [apply capped_range, hits_over_nonneg; lia | simpl; lia].

Lemma check_div0_wf ans : well_formed (check_div0 ans).
Proof. unfold check_div0. capped_grade. Qed.

Lemma check_sum_zero_wf ans : well_formed (check_sum_zero ans).
Proof. unfold check_sum_zero. capped_grade. Qed.

Lemma check_pivot_steps_wf ans : well_formed (check_pivot_steps ans).
Proof. unfold check_pivot_steps. capped_grade. Qed.

(** Whatever the question record and the answer, the grade is well
    formed; an id outside the bank gets the default grade. *)
Lemma grade_wf (q : question) (ans : option string) : well_formed (grade q ans).
Proof.
  unfold grade.
  repeat match goal with
         | |- context [String.eqb ?a ?b] => destruct (String.eqb a b)
         end;
    auto using check_sumifs_wf, check_xlookup_wf, check_countif_wf,
      check_average_wf, check_year_wf, check_div0_wf, check_sum_zero_wf,
      check_pivot_steps_wf;
    split_ifs; constant_grade.
Qed.

End GradingFacts.

(** C8: for every question of the bank and every answer, [grade] returns a
    score in the closed interval from 0 to 1 and a list of at least one
    note; the keyword-hit rules (hits/2, hits/3, hits/4) never exceed 1. *)
Theorem grade_score_in_unit_interval (q : question) (ans : option string) :
  In q QUESTIONS ->
  (0 <= fst (grade q ans) /\ fst (grade q ans) <= 1)%Q
  /\ (1 <= length (snd (grade q ans)))%nat
  /\ (fst (check_div0 ans) <= 1 /\ fst (check_sum_zero ans) <= 1
      /\ fst (check_pivot_steps ans) <= 1)%Q.
Proof.
  intros _. destruct (grade_wf q ans) as [Hs Hn].
  repeat split; try apply Hs; try exact Hn.
  - apply (check_div0_wf ans).
  - apply (check_sum_zero_wf ans).
  - apply (check_pivot_steps_wf ans).
Qed.

Lemma grade_score_in_unit_interval_witness :
  let q := mkQ "q10" hands_on
             "Upload a CSV/XLSX with Date and Sales columns. How would you create a chart to show monthly sales trend?"
             "Insert → Line chart, set X=Month(Date), Y=Sum(Sales)." 4 in
  let ans := Some "Pivot by month, rows = month, values = sum of sales, then a line chart" in
  In q QUESTIONS
  /\ ((0 <= fst (grade q ans) /\ fst (grade q ans) <= 1)%Q
      /\ (1 <= length (snd (grade q ans)))%nat
      /\ (fst (check_div0 ans) <= 1 /\ fst (check_sum_zero ans) <= 1
          /\ fst (check_pivot_steps ans) <= 1)%Q).
Proof.
  split.
  - unfold QUESTIONS. simpl. tauto.
  - apply grade_score_in_unit_interval. unfold QUESTIONS. simpl. tauto.
Defined.

Section BlankAnswers.

Variable ans : option string.
Hypothesis blank : all_space (or_empty ans) = true.

(** No keyword is found in a blank answer, lowercased. *)
Ltac no_keyword :=
  pose proof (lower_blank ans blank) as Ht;
  repeat (rewrite str_in_all_space by first [reflexivity | exact Ht]);
  simpl; qconst.

(** No function name is found in a blank answer, normalized. *)
Ltac no_function := rewrite (normalize_blank ans blank); simpl; qconst.

Lemma check_sumifs_blank : (fst (check_sumifs ans) == 0)%Q.
Proof. unfold check_sumifs. no_function. Qed.

Lemma check_xlookup_blank : (fst (check_xlookup ans) == 0)%Q.
Proof. unfold check_xlookup. no_function. Qed.

Lemma check_countif_blank : (fst (check_countif ans) == 0)%Q.
Proof. unfold check_countif. no_function. Qed.

Lemma check_average_blank : (fst (check_average ans) == 0)%Q.
Proof. unfold check_average. no_function. Qed.

Lemma check_year_blank : (fst (check_year ans) == 0)%Q.
Proof. unfold check_year. no_function. Qed.

Lemma check_div0_blank : (fst (check_div0 ans) == 0)%Q.
Proof. unfold check_div0. no_keyword. Qed.

Lemma check_sum_zero_blank : (fst (check_sum_zero ans) == 0)%Q.
Proof. unfold check_sum_zero. no_keyword. Qed.

Lemma check_pivot_steps_blank : (fst (check_pivot_steps ans) == 0)%Q.
Proof. unfold check_pivot_steps, pivot_keywords. simpl List.filter. no_keyword. Qed.

Lemma concept_rules_blank (ws : list string) :
  Forall (fun w => exists c n, w = String c n /\ is_space c = false) ws ->
  any_in ws (lower (or_empty ans)) = false.
Proof.
  induction 1 as [|w ws (c & n & -> & Hc) _ IH]; simpl; [reflexivity|].
  rewrite (str_in_all_space c n _ Hc (lower_blank ans blank)). exact IH.
Qed.

End BlankAnswers.

(** C6: for every question of the 10-question bank, an answer that is empty
    (or absent) or consists only of whitespace characters is graded 0.0. *)
Theorem grade_blank_answer_is_zero (q : question) (ans : option string) :
  In q QUESTIONS ->
  all_space (or_empty ans) = true ->
  (fst (grade q ans) == 0)%Q.
Proof.
  intros Hq Hblank. unfold QUESTIONS in Hq. simpl in Hq.
  repeat (destruct Hq as [<- | Hq]); try contradiction; unfold grade; cbn [id];
    repeat match goal with
           | |- context [String.eqb ?a ?b] =>
               let v := eval vm_compute in (String.eqb a b) in
               change (String.eqb a b) with v
           end;
    cbv beta iota zeta.
  - now apply check_sumifs_blank.
  - now apply check_xlookup_blank.
  - now apply check_countif_blank.
  - now apply check_average_blank.
  - now apply check_year_blank.
  - now apply check_div0_blank.
  - now apply check_sum_zero_blank.
  - rewrite concept_rules_blank; [simpl; qconst | exact Hblank |].
    repeat constructor; eexists _, _; split; reflexivity.
  - rewrite concept_rules_blank; [simpl; qconst | exact Hblank |].
    repeat constructor; eexists _, _; split; reflexivity.
  - now apply check_pivot_steps_blank.
Qed.

Lemma grade_blank_answer_is_zero_witness :
  let q := mkQ "q7" debug
             "Your SUM formula =SUM(A1:A10) is returning 0 even though numbers are visible. List likely causes."
             "Cells formatted as text; hidden characters/spaces; not actually numeric values." 3 in
  let ans := Some (String (ascii_of_nat 32) (String (ascii_of_nat 9) (String (ascii_of_nat 10) EmptyString))) in
  In q QUESTIONS /\ all_space (or_empty ans) = true /\ (fst (grade q ans) == 0)%Q.
Proof.
  split; [unfold QUESTIONS; simpl; tauto|].
  split; [reflexivity|].
  apply grade_blank_answer_is_zero; [unfold QUESTIONS; simpl; tauto | reflexivity].
Defined.

(** The normalized answer is the answer with its whitespace removed, in
    upper case. *)
Lemma normalize_unfold (ans : option string) :
  normalize ans = upper (re_sub_ws (or_empty ans)).
Proof. reflexivity. Qed.

Lemma is_space_upper (c : ascii) : is_space (upper_ascii c) = is_space c.
Proof. destruct c as [[] [] [] [] [] [] [] []]; reflexivity. Qed.

Lemma normalize_no_space (ans : option string) (c : ascii) :
  is_space c = true -> str_in (String c EmptyString) (normalize ans) = false.
Proof.
  intros Hc. unfold normalize.
  induction (or_empty ans) as [|c' s IH]; simpl; [reflexivity|].
  destruct (is_space c') eqn:Hc'; [exact IH|].
  simpl. fold (upper (re_sub_ws s)).
  destruct (ascii_dec c (upper_ascii c')) as [->|Hne].
  - rewrite is_space_upper in Hc. congruence.
  - exact IH.
Qed.

(** C7: the SUM-by-category rule.  An answer whose normalized form contains
    SUMIFS scores 1.0; one that contains SUMIF but not SUMIFS scores 0.9;
    any other scores 0.0.  The two example formulas score 1.0 (with a note
    that mentions SUMIFS) and 0.9; question q1 is graded by this rule. *)
Theorem check_sumifs_scores :
  (forall ans : option string,
      let a := normalize ans in
      (Substring "SUMIFS" a ->
       (fst (check_sumifs ans) == 1)%Q /\ snd (check_sumifs ans) = ["Uses SUMIFS"])
      /\ (Substring "SUMIF" a -> ~ Substring "SUMIFS" a ->
          (fst (check_sumifs ans) == 9 # 10)%Q)
      /\ (~ Substring "SUMIFS" a -> ~ (Substring "SUMIF" a /\ ~ Substring "SUMIFS" a) ->
          (fst (check_sumifs ans) == 0)%Q))
  /\ (let ans := Some ("=SUMIFS(B:B, A:A, " ++ dq ++ "Sales" ++ dq ++ ")") in
      (fst (check_sumifs ans) == 1)%Q
      /\ exists note, In note (snd (check_sumifs ans)) /\ Substring "SUMIFS" note)
  /\ (let ans := Some ("=SUMIF(B:B,A:A," ++ dq ++ "Sales" ++ dq ++ ")") in
      (fst (check_sumifs ans) == 9 # 10)%Q)
  /\ (forall (q : question) (ans : option string),
         id q = "q1" -> grade q ans = check_sumifs ans).
Proof.
  split; [|split; [|split]].
  - intros ans a. unfold check_sumifs. fold a.
    split; [|split].
    + intros H. apply str_in_spec in H. rewrite H. split; reflexivity.
    + intros H1 H2. apply str_in_spec in H1. apply str_in_false in H2.
      rewrite H2, H1. reflexivity.
    + intros H1 H2.
      assert (H3 : ~ Substring "SUMIF" a) by tauto.
      apply str_in_false in H1, H3. rewrite H1, H3. reflexivity.
  - split; [reflexivity|].
    exists "Uses SUMIFS". split; [left; reflexivity|].
    exists "Uses ", EmptyString. reflexivity.
  - reflexivity.
  - intros q ans Hq. unfold grade. rewrite Hq. reflexivity.
Qed.

(** ** Confidence classifier *)

Lemma Qle_bool_false (x y : Q) : Qle_bool x y = false <-> (y < x)%Q.
Proof.
  rewrite <- not_true_iff_false, Qle_bool_iff. split.
  - apply Qnot_le_lt.
  - apply Qlt_not_le.
Qed.

Lemma Qlt_bool_iff (x y : Q) : Qlt_bool x y = true <-> (x < y)%Q.
Proof. unfold Qlt_bool. rewrite negb_true_iff. apply Qle_bool_false. Qed.

Lemma confidence_high (s : Q) : confidence_label s = High <-> (0.8 <= s)%Q.
Proof.
  unfold confidence_label. rewrite <- Qle_bool_iff.
  destruct (Qle_bool 0.8 s); [tauto|].
  destruct (Qle_bool 0.4 s); split; discriminate.
Qed.

Lemma confidence_medium (s : Q) :
  confidence_label s = Medium <-> (0.4 <= s /\ s < 0.8)%Q.
Proof.
  unfold confidence_label. rewrite <- Qle_bool_iff, <- Qle_bool_false.
  destruct (Qle_bool 0.8 s); [intuition discriminate|].
  destruct (Qle_bool 0.4 s); intuition discriminate.
Qed.

Lemma confidence_low (s : Q) : confidence_label s = Low <-> (s < 0.4)%Q.
Proof.
  unfold confidence_label. rewrite <- Qle_bool_false.
  destruct (Qle_bool 0.8 s) eqn:H8.
  - split; [discriminate|]. intros H4. exfalso.
    apply Qle_bool_iff in H8. apply Qle_bool_false in H4.
    apply (Qlt_irrefl s). apply Qlt_le_trans with (0.4)%Q; [exact H4|].
    apply Qle_trans with (0.8)%Q; [qconst | exact H8].
  - destruct (Qle_bool 0.4 s); intuition discriminate.
Qed.

(** C4: the confidence classifier is a total function of the score (equal
    scores get equal labels) with exactly these boundaries: High from 0.8
    up, Medium from 0.4 up to but excluding 0.8, Low below 0.4, and in no
    other case; so 0.79 is Medium, 0.8 is High, 0.39 is Low and 0.4 is
    Medium. *)
Theorem confidence_label_boundaries :
  (forall s : Q, confidence_label s = High <-> (0.8 <= s)%Q)
  /\ (forall s : Q, confidence_label s = Medium <-> (0.4 <= s /\ s < 0.8)%Q)
  /\ (forall s : Q, confidence_label s = Low <-> (s < 0.4)%Q)
  /\ (forall s : Q, exists c, confidence_label s = c)
  /\ (forall s s' : Q, (s == s')%Q -> confidence_label s = confidence_label s')
  /\ confidence_label 0.79 = Medium
  /\ confidence_label 0.8 = High
  /\ confidence_label 0.39 = Low
  /\ confidence_label 0.4 = Medium.
Proof.
  split; [exact confidence_high|].
  split; [exact confidence_medium|].
  split; [exact confidence_low|].
  split; [intros s; eexists; reflexivity|].
  split; [|repeat split; reflexivity].
  intros s s' E. unfold confidence_label.
  rewrite (Qleb_comp _ _ (Qeq_refl 0.8%Q) s s' E).
  rewrite (Qleb_comp _ _ (Qeq_refl 0.4%Q) s s' E). reflexivity.
Qed.

(** ** Report generation *)

Section ReportFacts.

Variable st : session.

(** The loop appends to the three lists independently, in bank order. *)
Lemma report_loop (qs : list question) (r : report) :
  let r' := fold_left (report_step st) qs r in
  review_queue r'
    = (review_queue r ++ map (review_entry st) (List.filter (is_flagged st) qs))%list
  /\ strengths r'
    = (strengths r ++ map prompt (List.filter (is_strong st) qs))%list
  /\ weaknesses r'
    = (weaknesses r ++ map (weak_entry st) (List.filter (is_weak st) qs))%list.
Proof.
  revert r. induction qs as [|q qs IH]; intros r; simpl.
  - now rewrite !app_nil_r.
  - destruct (IH (report_step st r q)) as (Hr & Hs & Hw).
    rewrite Hr, Hs, Hw. clear IH Hr Hs Hw.
    unfold report_step, is_flagged, is_strong, is_weak, answered, score_of.
    destruct (has_key (responses st) (id q)); simpl; [|auto].
    unfold review_entry, weak_entry, append.
    destruct (Qle_bool 0.8 _), (Qle_bool _ 0.4), (Qlt_bool _ 0.4); simpl;
      rewrite <- ?app_assoc; auto.
Qed.

Lemma build_report_of_spec (qs : list question) :
  build_report_of qs st
  = mkReport (map (review_entry st) (List.filter (is_flagged st) qs))
      (map prompt (List.filter (is_strong st) qs))
      (map (weak_entry st) (List.filter (is_weak st) qs)).
Proof.
  unfold build_report_of.
  destruct (report_loop qs (mkReport [] [] [])) as (Hr & Hs & Hw).
  simpl in Hr, Hs, Hw.
  destruct (fold_left (report_step st) qs (mkReport [] [] [])) as [rq s w].
  simpl in *. congruence.
Qed.

Lemma is_flagged_low (q : question) : is_flagged st q = is_low_confidence st q.
Proof.
  unfold is_flagged, is_low_confidence. f_equal.
  destruct (Qlt_bool (score_of st q) 0.4) eqn:E.
  - apply Qlt_bool_iff, confidence_low in E. now rewrite E.
  - destruct (confidence_label (score_of st q)) eqn:C; try reflexivity.
    apply confidence_low, Qlt_bool_iff in C. congruence.
Qed.

End ReportFacts.

(** The prompts of the bank are pairwise different, so a prompt identifies
    its question. *)
Lemma prompts_nodup : NoDup (map prompt QUESTIONS).
Proof. apply (bool_decide_unpack _). vm_compute. reflexivity. Qed.

Lemma nodup_map_inj {A B} (f : A -> B) (l : list A) (x y : A) :
  NoDup (map f l) -> In x l -> In y l -> f x = f y -> x = y.
Proof.
  induction l as [|a l IH]; simpl; [contradiction|].
  intros Hnd Hx Hy E. inversion Hnd as [|b l' Ha Hnd']; subst.
  destruct Hx as [->|Hx], Hy as [->|Hy]; auto.
  - exfalso. apply Ha. rewrite E. apply list_elem_of_In. apply in_map, Hy.
  - exfalso. apply Ha. rewrite <- E. apply list_elem_of_In. apply in_map, Hx.
Qed.

Lemma prompt_identifies (q q' : question) :
  In q QUESTIONS -> In q' QUESTIONS -> prompt q = prompt q' -> q = q'.
Proof. apply nodup_map_inj, prompts_nodup. Qed.

(** C9: in the report, the weaknesses list holds every answered question
    with score at most 0.4, paired with its feedback, and the review queue
    holds exactly the answered questions with score strictly below 0.4, with
    the full answer and notes; so a question whose score is exactly 0.4 is
    among the weaknesses and not in the review queue. *)
Theorem weaknesses_and_review_queue (st : session) :
  weaknesses (build_report st)
    = map (weak_entry st) (List.filter (is_weak st) QUESTIONS)
  /\ review_queue (build_report st)
    = map (review_entry st) (List.filter (is_flagged st) QUESTIONS)
  /\ (forall q : question,
         In q QUESTIONS -> answered st q = true -> (score_of st q == 0.4)%Q ->
         In (weak_entry st q) (weaknesses (build_report st))
         /\ ~ In (prompt q) (map r_question (review_queue (build_report st)))
         /\ ~ In (review_entry st q) (review_queue (build_report st))).
Proof.
  unfold build_report. rewrite build_report_of_spec.
    cbn [weaknesses review_queue strengths].
  split; [reflexivity|]. split; [reflexivity|].
  intros q Hq Ha Hs.
  assert (Hnot : ~ In (prompt q)
                   (map r_question
                      (map (review_entry st) (List.filter (is_flagged st) QUESTIONS)))).
  { rewrite map_map. intros Hin.
    apply in_map_iff in Hin as (q' & Hp & Hq'). simpl in Hp.
    apply filter_In in Hq' as [Hq' Hf].
    assert (q' = q) as -> by (apply prompt_identifies; auto).
    unfold is_flagged in Hf. apply andb_true_iff in Hf as [_ Hf].
    apply Qlt_bool_iff in Hf. rewrite Hs in Hf. exact (Qlt_irrefl _ Hf). }
  split; [|split].
  - apply in_map, filter_In. split; [exact Hq|].
    unfold is_weak. rewrite Ha. apply andb_true_iff. split; [reflexivity|].
    apply Qle_bool_iff. rewrite Hs. apply Qle_refl.
  - exact Hnot.
  - intros Hin. apply Hnot.
    change (prompt q) with (r_question (review_entry st q)).
    now apply in_map.
Qed.

(** C10: a score is below 0.4 exactly when its confidence label is Low, so
    the review queue of every report holds exactly the answered questions
    whose confidence is Low. *)
Theorem review_queue_is_low_confidence :
  (forall s : Q, (s < 0.4)%Q <-> confidence_label s = Low)
  /\ (forall st : session,
         review_queue (build_report st)
         = map (review_entry st) (List.filter (is_low_confidence st) QUESTIONS))
  /\ (forall (st : session) (q : question),
         In q QUESTIONS ->
         (In (review_entry st q) (review_queue (build_report st))
          <-> answered st q = true /\ confidence_label (score_of st q) = Low)).
Proof.
  split; [|split].
  - intros s. symmetry. apply confidence_low.
  - intros st. unfold build_report. rewrite build_report_of_spec.
    cbn [weaknesses review_queue strengths].
    f_equal. apply filter_ext. intros q. apply is_flagged_low.
  - intros st q Hq. unfold build_report. rewrite build_report_of_spec.
    cbn [weaknesses review_queue strengths].
    rewrite in_map_iff. split.
    + intros (q' & Hp & Hq'). apply filter_In in Hq' as [Hq' Hf].
      assert (q' = q) as ->.
      { apply prompt_identifies; auto. now inversion Hp. }
      rewrite is_flagged_low in Hf. unfold is_low_confidence in Hf.
      apply andb_true_iff in Hf as [Ha Hl]. split; [exact Ha|].
      destruct (confidence_label (score_of st q)); try discriminate; reflexivity.
    + intros [Ha Hl]. exists q. split; [reflexivity|].
      apply filter_In. split; [exact Hq|].
      rewrite is_flagged_low. unfold is_low_confidence. now rewrite Ha, Hl.
Qed.

(** ** Session invariants *)

Lemma handle_consistent (st : session) (a : action) :
  consistent st -> consistent (handle st a).
Proof.
  intros [H1 H2]. destruct a as [|answer pivot_note|]; simpl.
  - split; simpl; now rewrite !dom_empty_L.
  - destruct (current_question st) as [q|]; [|now split].
    unfold submit. destruct (grade q (Some answer)) as [score ns].
    split; simpl; rewrite !dom_insert_L; congruence.
  - destruct (current_question st) as [q|]; [|now split].
    split; simpl; rewrite !dom_insert_L; congruence.
Qed.

Lemma fold_handle_consistent (acts : list action) (st : session) :
  consistent st -> consistent (fold_left handle acts st).
Proof.
  revert st. induction acts as [|a acts IH]; intros st H; simpl; [exact H|].
  apply IH, handle_consistent, H.
Qed.

Lemma run_consistent (acts : list action) : consistent (run acts).
Proof.
  apply fold_handle_consistent. split; simpl; now rewrite !dom_empty_L.
Qed.

(** ** Overall score *)

Section OverallFacts.

Lemma round_half_even_comp (x y : Q) :
  (x == y)%Q -> round_half_even x = round_half_even y.
Proof.
  intros E. unfold round_half_even.
  rewrite (Qfloor_comp x y E).
  assert (E' : (x - inject_Z (Qfloor y) == y - inject_Z (Qfloor y))%Q)
    by now rewrite E.
  now rewrite (Qcompare_comp _ _ E' _ _ (Qeq_refl (1 # 2))).
Qed.

Lemma round1_comp (x y : Q) : (x == y)%Q -> round1 x = round1 y.
Proof.
  intros E. unfold round1. f_equal. f_equal.
  apply round_half_even_comp. now rewrite E.
Qed.

Variable st : session.

Lemma ungraded_score (q : question) :
  has_grade st q = false -> score_of st q = 0.0%Q.
Proof.
  unfold has_grade, has_key, score_of, get.
  destruct (scores st !! id q); [discriminate | reflexivity].
Qed.

(** The running total of the generator: an unanswered question adds
    [0.0 * weight], that is nothing. *)
Lemma score_sum_loop (qs : list question) (acc : Q) :
  (fold_left
     (fun acc q => acc + get (scores st) (id q) 0.0 * inject_Z (weight q))
     qs acc
   == acc + graded_score_sum qs st)%Q.
Proof.
  revert acc. unfold graded_score_sum.
  induction qs as [|q qs IH]; intros acc; simpl.
  - ring.
  - rewrite IH. fold (score_of st q).
    destruct (has_grade st q) eqn:G; simpl.
    + ring.
    + rewrite (ungraded_score q G). ring.
Qed.

Lemma score_sum_graded (qs : list question) :
  (score_sum_of qs st == graded_score_sum qs st)%Q.
Proof. unfold score_sum_of. rewrite score_sum_loop. ring. Qed.

Lemma total_w_loop (qs : list question) (acc : Z) :
  fold_left (fun acc q => (acc + weight q)%Z) qs acc
  = (acc + sumZ (map weight qs))%Z.
Proof.
  revert acc. induction qs as [|q qs IH]; intros acc; simpl; [lia|].
  rewrite IH. lia.
Qed.

Lemma filter_all {A} (p : A -> bool) (l : list A) :
  (forall x, In x l -> p x = true) -> List.filter p l = l.
Proof.
  induction l as [|a l IH]; simpl; intros H; [reflexivity|].
  rewrite (H a (or_introl eq_refl)). f_equal. auto.
Qed.

(** The overall score of the bank: the graded questions in the numerator,
    the weight of the whole bank, 23, in the denominator. *)
Lemma overall_of_bank :
  overall_of QUESTIONS st
  = round1 (100 * (graded_score_sum QUESTIONS st / 23)).
Proof.
  unfold overall_of.
  change (total_w_of QUESTIONS) with 23%Z. cbv beta iota zeta.
  change (23 =? 0)%Z with false. cbv iota.
  apply round1_comp. now rewrite score_sum_graded.
Qed.

Lemma claimed_overall_all_graded :
  (forall q, In q QUESTIONS -> has_grade st q = true) ->
  (claimed_overall QUESTIONS st
   == 100 * (graded_score_sum QUESTIONS st / 23))%Q.
Proof.
  intros H. unfold claimed_overall, graded_weight.
  rewrite (filter_all _ _ H). reflexivity.
Qed.

End OverallFacts.

Lemma graded_session_has_responses (acts : list action) (q : question) :
  has_grade (run acts) q = true -> responses (run acts) <> ∅.
Proof.
  intros Hg Hempty. destruct (run_consistent acts) as [Hdom _].
  unfold has_grade, has_key in Hg.
  destruct (scores (run acts) !! id q) as [s|] eqn:E; [|discriminate].
  assert (Hin : id q ∈ dom (scores (run acts))) by (apply elem_of_dom; eauto).
  rewrite <- Hdom, Hempty, dom_empty_L in Hin.
  exact (not_elem_of_empty _ Hin).
Qed.

(** C1, as stated, fails: with only q1 graded (score 1.0, weight 2) the
    formula of the claim gives 100, while the header badge and the report
    show 8.7, that is 100 * 2 / 23: the nine unanswered questions count with
    their weight in the denominator. *)
Lemma overall_counts_unanswered_weights :
  List.filter (has_grade first_answer_only) QUESTIONS
    = List.filter (fun q => String.eqb (id q) "q1") QUESTIONS
  /\ (claimed_overall QUESTIONS first_answer_only == 100)%Q
  /\ header_overall first_answer_only = 8.7%Q
  /\ report_overall first_answer_only = Some 8.7%Q
  /\ ~ (8.7 == 100)%Q.
Proof.
  split; [vm_compute; reflexivity|].
  split; [vm_compute; reflexivity|].
  split; [vm_compute; reflexivity|].
  split; [vm_compute; reflexivity|].
  intros H. vm_compute in H. discriminate H.
Qed.

(** C1, amended: in every session with a recorded grade, the overall score
    shown in the header and in the report (and exported with either
    transcript) is 100 times the weighted sum of the recorded scores divided
    by the weight of the whole bank, 23, rounded to one decimal.  Unanswered
    questions add nothing to the numerator and keep their weight in the
    denominator; once every question is graded this is the weighted mean
    over the graded questions. *)
Theorem overall_weighted_over_bank (acts : list action) :
  (exists q, In q QUESTIONS /\ has_grade (run acts) q = true) ->
  total_w_of QUESTIONS = 23%Z
  /\ header_overall (run acts)
     = round1 (100 * (graded_score_sum QUESTIONS (run acts) / 23))
  /\ report_overall (run acts)
     = Some (round1 (100 * (graded_score_sum QUESTIONS (run acts) / 23)))
  /\ ((forall q, In q QUESTIONS -> has_grade (run acts) q = true) ->
      header_overall (run acts) = round1 (claimed_overall QUESTIONS (run acts))).
Proof.
  intros (q & _ & Hg).
  pose proof (graded_session_has_responses acts q Hg) as Hne.
  unfold header_overall, report_overall.
  destruct (decide (responses (run acts) = ∅)) as [He|_]; [contradiction|].
  rewrite overall_of_bank.
  split; [reflexivity|]. split; [reflexivity|]. split; [reflexivity|].
  intros Hall. apply round1_comp. symmetry.
  now apply claimed_overall_all_graded.
Qed.

Lemma overall_weighted_over_bank_witness :
  let acts := [Start; Submit "=SUMIFS(B:B, A:A, x)" None; Skip;
               Submit "use COUNTA" None] in
  (exists q, In q QUESTIONS /\ has_grade (run acts) q = true)
  /\ header_overall (run acts) = 17.4%Q
  /\ header_overall (run acts)
     = round1 (100 * (graded_score_sum QUESTIONS (run acts) / 23)).
Proof.
  intros acts.
  assert (H : exists q, In q QUESTIONS /\ has_grade (run acts) q = true).
  { exists (mkQ "q1" objective
              "Write an Excel formula that returns the SUM of column B only for rows where column A equals 'Sales'."
              ("=SUMIFS(B:B, A:A, " ++ dq ++ "Sales" ++ dq ++ ")") 2).
    split; [left; reflexivity | vm_compute; reflexivity]. }
  split; [exact H|].
  split; [vm_compute; reflexivity|].
  exact (proj1 (proj2 (overall_weighted_over_bank acts H))).
Defined.

(** The synthetic bank of the specification: weights 1, 2, 3 and scores
    1.0, 0.5, 0.0, all three graded, give 33.3. *)
Example overall_synthetic_bank :
  let bank := [mkQ "a" objective EmptyString EmptyString 1;
               mkQ "b" objective EmptyString EmptyString 2;
               mkQ "c" objective EmptyString EmptyString 3] in
  let st := mkSession true 3 ∅
              (<["a" := 1.0%Q]> (<["b" := 0.5%Q]> (<["c" := 0.0%Q]> ∅))) ∅ in
  overall_of bank st = 33.3%Q.
Proof. vm_compute. reflexivity. Qed.

(** ** Tabular validator *)

Section StripFacts.

Lemma prefix_nil_r (m : string) :
  String.prefix m EmptyString = match m with EmptyString => true | _ => false end.
Proof. destruct m; reflexivity. Qed.

Lemma prefix_cons (a c : ascii) (m s : string) :
  String.prefix (String a m) (String c s)
  = if ascii_dec a c then String.prefix m s else false.
Proof. reflexivity. Qed.

Lemma rstrip_nil_all_space (s : string) :
  rstrip s = EmptyString -> all_space s = true.
Proof.
  induction s as [|c s IH]; simpl; [reflexivity|].
  destruct (rstrip s) as [|c' r]; [|discriminate].
  destruct (is_space c); [intros _; simpl; auto | discriminate].
Qed.

(** A word that ends with a visible character is no prefix of
    whitespace. *)
Lemma prefix_all_space (m s : string) :
  m <> EmptyString -> ends_visible m = true -> all_space s = true ->
  String.prefix m s = false.
Proof.
  revert s. induction m as [|a m IH]; intros s Hne Hv Hs; [congruence|].
  destruct s as [|c s]; [reflexivity|].
  rewrite prefix_cons. simpl in Hs. apply andb_true_iff in Hs as [Hc Hs].
  destruct (ascii_dec a c) as [->|]; [|reflexivity].
  destruct m as [|b m].
  - simpl in Hv. rewrite Hc in Hv. discriminate.
  - apply IH; [discriminate | exact Hv | exact Hs].
Qed.

Lemma prefix_rstrip (m s : string) :
  ends_visible m = true -> String.prefix m (rstrip s) = String.prefix m s.
Proof.
  revert m. induction s as [|c s IH]; intros m Hv; [reflexivity|].
  destruct m as [|a m]; [simpl; destruct (rstrip s), (is_space c); reflexivity|].
  assert (Hm : ends_visible m = true).
  { destruct m; [reflexivity | exact Hv]. }
  rewrite prefix_cons. simpl rstrip.
  destruct (rstrip s) as [|c' r] eqn:Er.
  - apply rstrip_nil_all_space in Er.
    destruct (is_space c) eqn:Hc.
    + rewrite prefix_nil_r.
      destruct (ascii_dec a c) as [->|]; [|reflexivity].
      destruct m as [|b m].
      * simpl in Hv. rewrite Hc in Hv. discriminate.
      * symmetry. apply prefix_all_space; [discriminate | exact Hm | exact Er].
    + rewrite prefix_cons. destruct (ascii_dec a c) as [->|]; [|reflexivity].
      rewrite prefix_nil_r. destruct m as [|b m].
      * destruct s; reflexivity.
      * symmetry. apply prefix_all_space; [discriminate | exact Hm | exact Er].
  - rewrite prefix_cons. destruct (ascii_dec a c); [|reflexivity].
    apply IH, Hm.
Qed.

Lemma str_in_rstrip (w s : string) :
  visible_word w = true -> str_in w (rstrip s) = str_in w s.
Proof.
  intros Hw. destruct w as [|a w]; [discriminate|].
  apply andb_true_iff in Hw as [_ Hv].
  induction s as [|c s IH]; [reflexivity|].
  rewrite str_in_cons, <- (prefix_rstrip _ (String c s) Hv), <- IH.
  simpl rstrip. destruct (rstrip s) as [|c' r] eqn:Er.
  - destruct (is_space c).
    + rewrite str_in_nil. rewrite prefix_nil_r. reflexivity.
    + rewrite str_in_cons, str_in_nil. reflexivity.
  - rewrite str_in_cons. reflexivity.
Qed.

Lemma str_in_lstrip (w s : string) :
  visible_word w = true -> str_in w (lstrip s) = str_in w s.
Proof.
  intros Hw. destruct w as [|a w]; [discriminate|].
  apply andb_true_iff in Hw as [Ha _]. apply negb_true_iff in Ha.
  induction s as [|c s IH]; [reflexivity|].
  simpl lstrip. destruct (is_space c) eqn:Hc; [|reflexivity].
  rewrite IH, str_in_cons, prefix_cons.
  destruct (ascii_dec a c) as [->|]; [congruence | reflexivity].
Qed.

Lemma str_in_strip (w s : string) :
  visible_word w = true -> str_in w (strip s) = str_in w s.
Proof.
  intros Hw. unfold strip. now rewrite str_in_rstrip, str_in_lstrip.
Qed.

Lemma lstrip_lower (s : string) : lstrip (lower s) = lower (lstrip s).
Proof.
  induction s as [|c s IH]; [reflexivity|].
  simpl. fold (lower s). rewrite is_space_lower.
  destruct (is_space c); [exact IH | reflexivity].
Qed.

Lemma rstrip_lower (s : string) : rstrip (lower s) = lower (rstrip s).
Proof.
  induction s as [|c s IH]; [reflexivity|].
  simpl. fold (lower s). rewrite IH, is_space_lower.
  destruct (rstrip s); simpl; [destruct (is_space c)|]; reflexivity.
Qed.

(** Stripping the name does not change whether it contains a keyword. *)
Lemma str_in_lower_strip (w s : string) :
  visible_word w = true -> str_in w (lower (strip s)) = str_in w (lower s).
Proof.
  intros Hw. unfold strip.
  rewrite <- rstrip_lower, <- lstrip_lower. now apply str_in_strip.
Qed.

End StripFacts.

Section DiscoveryFacts.

Lemma bind_Ok {A B} (a : A) (k : A -> exc B) : (Ok a ≫= k) = k a.
Proof. reflexivity. Qed.


Lemma for_exc_cons {A S} (step : S -> A -> exc S) (a : A) (l : list A) (s : S) :
  for_exc step (a :: l) s = (step s a ≫= for_exc step l).
Proof. reflexivity. Qed.

Lemma map_exc_cons {A B} (f : A -> exc B) (a : A) (l : list A) :
  map_exc f (a :: l) = (b ← f a; bs ← map_exc f l; Ok (b :: bs)).
Proof. reflexivity. Qed.

Lemma strip_lower_text (s : string) : strip_lower (LStr s) = Ok (lower (strip s)).
Proof. reflexivity. Qed.

Lemma date_test_of_name (s : string) :
  is_date_name (lower (strip s)) = is_date_column (LStr s).
Proof. unfold is_date_name. now rewrite str_in_lower_strip. Qed.

Lemma sales_test_of_name (s : string) :
  is_sales_name (lower (strip s)) = is_sales_column (LStr s).
Proof. unfold is_sales_name. now rewrite !str_in_lower_strip. Qed.

Lemma find_step_text (d s : option label) (c : label) :
  is_text c = true ->
  find_step (d, s) c
  = Ok (if is_date_column c then Some c else d,
        if is_sales_column c then Some c else s).
Proof.
  destruct c as [name|z]; [intros _|discriminate].
  unfold find_step. rewrite strip_lower_text, bind_Ok.
  now rewrite date_test_of_name, sales_test_of_name.
Qed.

Lemma last_match_cons (p : label -> bool) (c : label) (cols : list label) :
  last_match p (c :: cols)
  = or_else (last_match p cols) (if p c then Some c else None).
Proof.
  unfold last_match. simpl. generalize (rev cols). intros l.
  induction l as [|x l IH]; simpl; [reflexivity|].
  destruct (p x); [reflexivity | exact IH].
Qed.

(** The loop keeps, for each kind, the latest column that matched. *)
Lemma find_loop_text (cols : list label) (d s : option label) :
  forallb is_text cols = true ->
  for_exc find_step cols (d, s)
  = Ok (or_else (last_match is_date_column cols) d,
        or_else (last_match is_sales_column cols) s).
Proof.
  revert d s. induction cols as [|c cols IH]; intros d s Ht; [reflexivity|].
  simpl in Ht. apply andb_true_iff in Ht as [Hc Ht].
  rewrite for_exc_cons, (find_step_text d s c Hc), bind_Ok.
  rewrite (IH _ _ Ht), !last_match_cons.
  destruct (last_match is_date_column cols), (last_match is_sales_column cols),
    (is_date_column c), (is_sales_column c); reflexivity.
Qed.

Lemma find_columns_text (cols : list label) :
  forallb is_text cols = true ->
  find_columns cols
  = Ok (last_match is_date_column cols, last_match is_sales_column cols).
Proof.
  intros Ht. unfold find_columns. rewrite (find_loop_text cols None None Ht).
  destruct (last_match is_date_column cols), (last_match is_sales_column cols);
    reflexivity.
Qed.

Lemma find_none (p : label -> bool) (l : list label) :
  List.find p l = None <-> (forall c, In c l -> p c = false).
Proof.
  induction l as [|x l IH]; simpl; [tauto|].
  destruct (p x) eqn:E.
  - split; [discriminate|]. intros H. rewrite (H x) in E by auto. discriminate.
  - rewrite IH. split.
    + intros H c [<-|Hc]; auto.
    + intros H c Hc. auto.
Qed.

Lemma last_match_none (p : label -> bool) (cols : list label) :
  last_match p cols = None <-> (forall c, In c cols -> p c = false).
Proof.
  unfold last_match. rewrite find_none. split; intros H c Hc; apply H.
  - now apply in_rev in Hc.
  - now apply in_rev.
Qed.

(** The latest match is the last column of the table that matches. *)
Lemma last_match_some (p : label -> bool) (cols : list label) (c : label) :
  last_match p cols = Some c <->
  exists pre post, cols = (pre ++ c :: post)%list /\ p c = true
                   /\ (forall x, In x post -> p x = false).
Proof.
  split.
  - revert c. induction cols as [|x cols IH]; intros c; [discriminate|].
    rewrite last_match_cons.
    destruct (last_match p cols) as [y|] eqn:E; simpl.
    + intros [= ->]. destruct (IH c eq_refl) as (pre & post & -> & Hp & Hpost).
      exists (x :: pre), post. auto.
    + destruct (p x) eqn:Hx; [|discriminate]. intros [= ->].
      exists [], cols. repeat split; auto. now apply last_match_none.
  - intros (pre & post & -> & Hp & Hpost).
    induction pre as [|x pre IH]; simpl.
    + rewrite last_match_cons, Hp.
      apply last_match_none in Hpost. now rewrite Hpost.
    + rewrite last_match_cons, IH. reflexivity.
Qed.

Lemma map_exc_text (cols : list label) :
  forallb is_text cols = true ->
  exists names, map_exc strip_lower cols = Ok names.
Proof.
  induction cols as [|c cols IH]; [intros _; exists []; reflexivity|].
  simpl forallb. intros [Hc Ht]%andb_true_iff. destruct (IH Ht) as [names E].
  destruct c as [s|z]; [|discriminate].
  rewrite map_exc_cons, strip_lower_text, bind_Ok, E, bind_Ok. eauto.
Qed.


End DiscoveryFacts.

(** C2, as stated, fails: with two date-named and two sales-named columns
    the loop ends on the later ones, not on the first ones; the validator
    shows the choice in its note. *)
Lemma first_matching_column_not_selected :
  let cols := [LStr "OrderDate"; LStr "ShipDate"; LStr "Sales"; LStr "Revenue"] in
  first_match is_date_column cols = Some (LStr "OrderDate")
  /\ first_match is_sales_column cols = Some (LStr "Sales")
  /\ find_columns cols = Ok (Some (LStr "ShipDate"), Some (LStr "Revenue"))
  /\ LStr "OrderDate" <> LStr "ShipDate"
  /\ LStr "Sales" <> LStr "Revenue"
  /\ pivot_validate_dataframe [LStr "OrderDate"; LStr "ShipDate"]
     = (false, "Missing columns: date_col=ShipDate, sales_col=None", None).
Proof.
  repeat split; try (vm_compute; reflexivity); discriminate.
Qed.

(** C2, amended: in a table whose column labels are all text, when more
    than one column name case-insensitively contains the word date
    (respectively sales, amount or revenue), the last such column in the
    table's column order is selected as the date column (respectively the
    sales column). *)
Theorem find_columns_last_match (cols : list label) :
  forallb is_text cols = true ->
  find_columns cols
  = Ok (last_match is_date_column cols, last_match is_sales_column cols)
  /\ (forall d, last_match is_date_column cols = Some d <->
        exists pre post, cols = (pre ++ d :: post)%list
                         /\ is_date_column d = true
                         /\ (forall x, In x post -> is_date_column x = false))
  /\ (forall s, last_match is_sales_column cols = Some s <->
        exists pre post, cols = (pre ++ s :: post)%list
                         /\ is_sales_column s = true
                         /\ (forall x, In x post -> is_sales_column x = false)).
Proof.
  intros Ht. split; [now apply find_columns_text|].
  split; intros c; apply last_match_some.
Qed.

Lemma find_columns_last_match_witness :
  let cols := [LStr "Order Date"; LStr "Region"; LStr "Sales Amount";
               LStr " ship_DATE "; LStr "Net Revenue"] in
  forallb is_text cols = true
  /\ find_columns cols = Ok (Some (LStr " ship_DATE "), Some (LStr "Net Revenue"))
  /\ find_columns cols
     = Ok (last_match is_date_column cols, last_match is_sales_column cols).
Proof.
  intros cols. split; [reflexivity|]. split; [vm_compute; reflexivity|].
  exact (proj1 (find_columns_last_match cols eq_refl)).
Defined.


(** C5, as stated, fails: a spreadsheet whose header holds a number gives a
    table in which no column name contains the word date, and the validator
    answers with the error note, which names no missing column. *)
Lemma numeric_header_hides_missing_column :
  let df := [LStr "Region"; LInt 2023] in
  forallb (fun c => negb (is_date_column c)) df = true
  /\ forallb (fun c => negb (is_sales_column c)) df = true
  /\ pivot_validate_dataframe df
     = (false, "Pivot validation error: 'int' object has no attribute 'strip'",
        None)
  /\ str_in "date_col" (snd (fst (pivot_validate_dataframe df))) = false
  /\ str_in "sales_col" (snd (fst (pivot_validate_dataframe df))) = false
  /\ str_in "Missing" (snd (fst (pivot_validate_dataframe df))) = false.
Proof. repeat split; vm_compute; reflexivity. Qed.

(** C5, amended: for every input table whose column labels are all text and
    in which no column name case-insensitively contains the word date, or
    none contains sales, amount or revenue, the validator returns
    [ok = false] with no aggregate and the note
    [Missing columns: date_col=..., sales_col=...], which prints [None] for
    each column that is missing and the name of the other one. *)
Theorem missing_columns_reported `{Pandas} (df : DataFrame) :
  forallb is_text (columns df) = true ->
  (forall c, In c (columns df) -> is_date_column c = false)
  \/ (forall c, In c (columns df) -> is_sales_column c = false) ->
  exists d s : option label,
    pivot_validate_dataframe df
    = (false,
       "Missing columns: date_col=" ++ str_of_col d ++ ", sales_col=" ++ str_of_col s,
       None)
    /\ d = last_match is_date_column (columns df)
    /\ s = last_match is_sales_column (columns df)
    /\ (d = None <-> (forall c, In c (columns df) -> is_date_column c = false))
    /\ (s = None <-> (forall c, In c (columns df) -> is_sales_column c = false))
    /\ str_of_col None = "None".
Proof.
  intros Ht Hmiss.
  exists (last_match is_date_column (columns df)),
    (last_match is_sales_column (columns df)).
  split; [|repeat split; try apply last_match_none].
  unfold pivot_validate_dataframe, validate_body.
  destruct (map_exc_text _ Ht) as [names ->]. rewrite bind_Ok.
  rewrite (find_columns_text _ Ht), bind_Ok.
  destruct Hmiss as [Hd|Hs].
  - apply last_match_none in Hd. rewrite Hd. reflexivity.
  - apply last_match_none in Hs. rewrite Hs.
    destruct (last_match is_date_column (columns df)); reflexivity.
Qed.

Lemma missing_columns_reported_witness :
  let df := [LStr "OrderDate"; LStr "Region"] in
  forallb is_text df = true
  /\ (forall c, In c df -> is_sales_column c = false)
  /\ pivot_validate_dataframe df
     = (false, "Missing columns: date_col=OrderDate, sales_col=None", None)
  /\ exists d s : option label,
      pivot_validate_dataframe df
      = (false,
         "Missing columns: date_col=" ++ str_of_col d ++ ", sales_col=" ++ str_of_col s,
         None)
      /\ s = None.
Proof.
  intros df.
  assert (Hs : forall c, In c df -> is_sales_column c = false).
  { intros c [<-|[<-|[]]]; reflexivity. }
  split; [reflexivity|]. split; [exact Hs|]. split; [vm_compute; reflexivity|].
  destruct (missing_columns_reported (H := header_only) df eq_refl (or_intror Hs))
    as (d & s & E & _ & _ & _ & Hnone & _).
  exists d, s. split; [exact E|]. now apply Hnone.
Defined.

(** ** Binary64 scores and their rationals *)

(** On every score a rule can return, the binary64 comparisons of the
    classifier and of the report agree with the comparisons of rationals. *)
Lemma produced_scores_agree : Forall Binary64.same_tests Binary64.produced.
Proof. vm_compute. repeat constructor. Qed.

Lemma capped_produced (d hits bound : nat) :
  (hits < bound)%nat ->
  In (Qmin 1.0 (hits_over hits (Z.of_nat d)))
     (map snd (map (Binary64.capped d) (seq 0 bound))).
Proof.
  intros Hb. rewrite map_map. apply in_map_iff. exists hits.
  split; [reflexivity | apply in_seq; lia].
Qed.

Lemma filter_length_le {A} (p : A -> bool) (l : list A) :
  (length (List.filter p l) <= length l)%nat.
Proof.
  induction l as [|a l IH]; simpl; [lia|]. destruct (p a); simpl; lia.
Qed.

(** Every score [grade] returns is one of these. *)
Lemma grade_score_produced (q : question) (ans : option string) :
  In (fst (grade q ans)) (map snd Binary64.produced).
Proof.
  assert (Hpivot : In (fst (check_pivot_steps ans)) (map snd Binary64.produced)).
  { unfold Binary64.produced. rewrite !map_app, !in_app_iff. do 3 right.
    apply (capped_produced 4).
    pose proof (filter_length_le (fun w => str_in w (lower (or_empty ans)))
                  pivot_keywords) as Hle.
    simpl length in Hle at 2.
    change (length (List.filter (fun w => str_in w (lower (or_empty ans)))
                      pivot_keywords) < 9)%nat. lia. }
  unfold grade.
  repeat match goal with
         | |- context [String.eqb ?a ?b] => destruct (String.eqb a b)
         end; try exact Hpivot;
    unfold check_sumifs, check_xlookup, check_countif, check_average, check_year,
      check_div0, check_sum_zero;
    repeat match goal with
           | |- context [if ?b then _ else _] => destruct b
           end;
    vm_compute; tauto.
Qed.

(** The boundary examples, in binary64. *)
Example confidence_boundaries_binary64 :
  Binary64.confidence_label64 0x1.947ae147ae148p-1 = Medium
  /\ Binary64.confidence_label64 0x1.999999999999ap-1 = High
  /\ Binary64.confidence_label64 0x1.8f5c28f5c28f6p-2 = Low
  /\ Binary64.confidence_label64 0x1.999999999999ap-2 = Medium.
Proof. repeat split; reflexivity. Qed.

(** ** Examples of the specification, evaluated *)

Example div0_both_causes :
  check_div0 (Some "#DIV/0! is caused by dividing by zero or a blank denominator")
  = (Qmin 1.0 (hits_over 2 2), ["matched 2 causes"])
  /\ (Qmin 1.0 (hits_over 2 2) == 1)%Q.
Proof. split; vm_compute; reflexivity. Qed.

Example order_date_sales_amount :
  find_columns [LStr "OrderDate"; LStr "Region"; LStr "SalesAmount"]
  = Ok (Some (LStr "OrderDate"), Some (LStr "SalesAmount")).
Proof. vm_compute. reflexivity. Qed.

Example skip_grade :
  let st := run [Start; Skip] in
  scores st !! "q1" = Some 0.0%Q /\ notes st !! "q1" = Some ["skipped"]
  /\ responses st !! "q1" = Some EmptyString /\ current_q st = 1%nat.
Proof. repeat split; vm_compute; reflexivity. Qed.

(** A score of exactly 0.4 on the first question: an area to improve, not
    flagged for review. *)
Example boundary_score_report :
  let st := mkSession true 1 (<["q1" := "sum"]> ∅) (<["q1" := 0.4%Q]> ∅)
              (<["q1" := ["partial"]]> ∅) in
  map fst (weaknesses (build_report st))
  = ["Write an Excel formula that returns the SUM of column B only for rows where column A equals 'Sales'."]
  /\ review_queue (build_report st) = []
  /\ confidence_label 0.4 = Medium.
Proof. repeat split; vm_compute; reflexivity. Qed.

(** * Further properties *)

(** ** Strings, continued *)

Section MoreTextFacts.

Lemma append_assoc_s (a b c : string) : (a ++ b) ++ c = a ++ (b ++ c).
Proof.
  induction a as [|x a IH]; [reflexivity|].
  change (String x ((a ++ b) ++ c) = String x (a ++ (b ++ c))). now rewrite IH.
Qed.

Lemma append_cons (x : ascii) (a b : string) : String x a ++ b = String x (a ++ b).
Proof. reflexivity. Qed.

Lemma append_nil_l (a : string) : EmptyString ++ a = a.
Proof. reflexivity. Qed.

Lemma smap_append (f : ascii -> ascii) (a b : string) :
  smap f (a ++ b) = smap f a ++ smap f b.
Proof.
  induction a as [|x a IH]; [reflexivity|].
  rewrite append_cons. simpl. now rewrite IH.
Qed.

Lemma re_sub_ws_append (a b : string) :
  re_sub_ws (a ++ b) = re_sub_ws a ++ re_sub_ws b.
Proof.
  induction a as [|x a IH]; [reflexivity|].
  rewrite append_cons. simpl. destruct (is_space x); [exact IH|].
  now rewrite append_cons, IH.
Qed.

Lemma re_sub_ws_smap (f : ascii -> ascii) (s : string) :
  (forall c, is_space (f c) = is_space c) ->
  re_sub_ws (smap f s) = smap f (re_sub_ws s).
Proof.
  intros Hf. induction s as [|x s IH]; [reflexivity|].
  simpl. rewrite Hf. destruct (is_space x); [exact IH|]. simpl. now rewrite IH.
Qed.



Lemma upper_upper_ascii (c : ascii) : upper_ascii (upper_ascii c) = upper_ascii c.
Proof. destruct c as [[] [] [] [] [] [] [] []]; reflexivity. Qed.


Lemma smap_smap (f g h : ascii -> ascii) (s : string) :
  (forall c, f (g c) = h c) -> smap f (smap g s) = smap h s.
Proof.
  intros H. induction s as [|x s IH]; [reflexivity|]. simpl. now rewrite H, IH.
Qed.

Lemma Substring_trans (n m h : string) :
  Substring n m -> Substring m h -> Substring n h.
Proof.
  intros (p1 & s1 & ->) (p2 & s2 & ->).
  exists (p2 ++ p1), (s1 ++ s2). now rewrite !append_assoc_s.
Qed.

Lemma Substring_append_r (n a b : string) : Substring n a -> Substring n (a ++ b).
Proof.
  intros (p & s & ->). exists p, (s ++ b). now rewrite !append_assoc_s.
Qed.

Lemma Substring_append_l (n a b : string) : Substring n a -> Substring n (b ++ a).
Proof.
  intros (p & s & ->). exists (b ++ p), s. now rewrite !append_assoc_s.
Qed.

(** A word found in a text is found in every text around it. *)
Lemma str_in_mono (n a pre suf : string) :
  str_in n a = true -> str_in n (pre ++ a ++ suf) = true.
Proof.
  rewrite !str_in_spec. intros H.
  apply Substring_append_l, Substring_append_r, H.
Qed.

Lemma str_in_longer (n m h : string) :
  str_in n m = true -> str_in m h = true -> str_in n h = true.
Proof. rewrite !str_in_spec. apply Substring_trans. Qed.

End MoreTextFacts.

(** ** Grading rules, continued *)

Section GradeInputs.


Ltac eval_dispatch :=
  repeat match goal with
         | |- context [String.eqb ?a ?b] =>
             let v := eval vm_compute in (String.eqb a b) in
             change (String.eqb a b) with v
         end;
  cbv beta iota zeta.

(** The formula questions read the normalized form only. *)
Lemma grade_formula_ext (q : question) (a b : option string) :
  In (id q) formula_ids -> normalize a = normalize b -> grade q a = grade q b.
Proof.
  intros Hq Hn. unfold formula_ids in Hq. simpl in Hq.
  unfold grade.
  repeat (destruct Hq as [<- | Hq]); try contradiction; eval_dispatch;
    unfold check_sumifs, check_xlookup, check_countif, check_average, check_year;
    now rewrite Hn.
Qed.



Lemma normalize_drops_space (x ws y : string) :
  all_space ws = true -> normalize (Some (x ++ ws ++ y)) = normalize (Some (x ++ y)).
Proof.
  intros Hws. unfold normalize. simpl or_empty.
  now rewrite !re_sub_ws_append, (re_sub_ws_all_space ws Hws), append_nil_l.
Qed.

End GradeInputs.


(** X2: on the five formula questions, whitespace anywhere in the answer
    does not change the grade. *)
Theorem formula_grade_ignores_whitespace (q : question) (x ws y : string) :
  In (id q) formula_ids ->
  all_space ws = true ->
  grade q (Some (x ++ ws ++ y)) = grade q (Some (x ++ y)).
Proof.
  intros Hq Hws. apply grade_formula_ext; [exact Hq|].
  now apply normalize_drops_space.
Qed.

Lemma formula_grade_ignores_whitespace_witness :
  let q := mkQ "q5" objective
             "Write a formula that extracts the year from a date in cell F2."
             "=YEAR(F2)" 1 in
  In (id q) formula_ids
  /\ all_space "   " = true
  /\ grade q (Some ("=YEAR" ++ "   " ++ "(F2)")) = grade q (Some ("=YEAR" ++ "(F2)"))
  /\ (fst (grade q (Some "=YEAR   (F2)")) == 1)%Q.
Proof.
  intros q. split; [vm_compute; tauto|]. split; [reflexivity|].
  split; [|vm_compute; reflexivity].
  apply (formula_grade_ignores_whitespace q "=YEAR" "   " "(F2)");
    [vm_compute; tauto | reflexivity].
Defined.

Section Monotone.

Lemma hits_over_mono (h1 h2 : nat) (d : Z) :
  (0 < d)%Z -> (h1 <= h2)%nat ->
  (Qmin 1.0 (hits_over h1 d) <= Qmin 1.0 (hits_over h2 d))%Q.
Proof.
  intros Hd Hh. apply Q.min_le_compat_l. unfold hits_over.
  apply Qmult_le_compat_r.
  - rewrite <- Zle_Qle. lia.
  - apply Qinv_le_0_compat. unfold Qle. simpl. lia.
Qed.

Lemma filter_length_mono {A} (p p' : A -> bool) (l : list A) :
  (forall x, p x = true -> p' x = true) ->
  (length (List.filter p l) <= length (List.filter p' l))%nat.
Proof.
  intros H. induction l as [|x l IH]; simpl; [lia|].
  destruct (p x) eqn:E.
  - rewrite (H x E). simpl. lia.
  - destruct (p' x); simpl; lia.
Qed.

Variables la la' na na' : string.
Hypothesis lower_grows : forall w, str_in w la = true -> str_in w la' = true.
Hypothesis normal_grows : forall w, str_in w na = true -> str_in w na' = true.

Ltac grow H t t' :=
  repeat match goal with
         | |- context [str_in ?w t] =>
             let E := fresh "E" in
             destruct (str_in w t) eqn:E;
             [try rewrite (H w E) | destruct (str_in w t')]
         end.

Ltac by_value := cbn [fst]; apply Qle_bool_iff; vm_compute; reflexivity.

Lemma sumifs_grows :
  (fst (if str_in "SUMIFS" na then (1.0%Q, ["Uses SUMIFS"])
        else if str_in "SUMIF" na then (0.9%Q, ["Uses SUMIF (acceptable)"])
        else (0.0%Q, ["SUMIF(S) not detected"]))
   <= fst (if str_in "SUMIFS" na' then (1.0%Q, ["Uses SUMIFS"])
           else if str_in "SUMIF" na' then (0.9%Q, ["Uses SUMIF (acceptable)"])
           else (0.0%Q, ["SUMIF(S) not detected"])))%Q.
Proof. grow normal_grows na na'; by_value. Qed.

Lemma flag_grows (c c' : bool) (yes no : list string) :
  (c = true -> c' = true) ->
  (fst (if c then (1.0%Q, yes) else (0.0%Q, no))
   <= fst (if c' then (1.0%Q, yes) else (0.0%Q, no)))%Q.
Proof.
  intros H. destruct c; [rewrite (H eq_refl)|destruct c']; cbn [fst]; qconst.
Qed.

Lemma or_grows (w1 w2 t t' : string) :
  (forall w, str_in w t = true -> str_in w t' = true) ->
  str_in w1 t || str_in w2 t = true -> str_in w1 t' || str_in w2 t' = true.
Proof.
  intros H [E|E]%orb_true_iff; rewrite (H _ E); [reflexivity | apply orb_true_r].
Qed.

Lemma any_in_grows (ws : list string) :
  any_in ws la = true -> any_in ws la' = true.
Proof.
  unfold any_in. rewrite !existsb_exists.
  intros (w & Hw & E). exists w. split; [exact Hw | now apply lower_grows].
Qed.

Lemma div0_grows :
  (Qmin 1.0
     (hits_over
        (let hits := 0%nat in
         let hits := if str_in "zero" la || str_in "divide" la then S hits else hits in
         if str_in "blank" la || str_in "empty" la then S hits else hits) 2)
   <= Qmin 1.0
        (hits_over
           (let hits := 0%nat in
            let hits := if str_in "zero" la' || str_in "divide" la' then S hits else hits in
            if str_in "blank" la' || str_in "empty" la' then S hits else hits) 2))%Q.
Proof.
  apply hits_over_mono; [lia|]. cbv zeta.
  pose proof (or_grows "zero" "divide" la la' lower_grows) as H1.
  pose proof (or_grows "blank" "empty" la la' lower_grows) as H2.
  destruct (str_in "zero" la || str_in "divide" la);
    [rewrite (H1 eq_refl) | destruct (str_in "zero" la' || str_in "divide" la')];
    (destruct (str_in "blank" la || str_in "empty" la);
     [rewrite (H2 eq_refl) | destruct (str_in "blank" la' || str_in "empty" la')]);
    lia.
Qed.

Lemma sum_zero_grows :
  (Qmin 1.0
     (hits_over
        (let hits := 0%nat in
         let hits := if str_in "text" la then S hits else hits in
         let hits := if str_in "format" la || str_in "formatted" la then S hits else hits in
         if str_in "hidden" la || str_in "space" la then S hits else hits) 3)
   <= Qmin 1.0
        (hits_over
           (let hits := 0%nat in
            let hits := if str_in "text" la' then S hits else hits in
            let hits := if str_in "format" la' || str_in "formatted" la' then S hits else hits in
            if str_in "hidden" la' || str_in "space" la' then S hits else hits) 3))%Q.
Proof.
  apply hits_over_mono; [lia|]. cbv zeta.
  pose proof (lower_grows "text") as H0.
  pose proof (or_grows "format" "formatted" la la' lower_grows) as H1.
  pose proof (or_grows "hidden" "space" la la' lower_grows) as H2.
  destruct (str_in "text" la); [rewrite (H0 eq_refl) | destruct (str_in "text" la')];
    (destruct (str_in "format" la || str_in "formatted" la);
     [rewrite (H1 eq_refl)
     | destruct (str_in "format" la' || str_in "formatted" la')]);
    (destruct (str_in "hidden" la || str_in "space" la);
     [rewrite (H2 eq_refl) | destruct (str_in "hidden" la' || str_in "space" la')]);
    lia.
Qed.

Lemma pivot_grows :
  (Qmin 1.0
     (hits_over (length (List.filter (fun w => str_in w la) pivot_keywords)) 4)
   <= Qmin 1.0
        (hits_over (length (List.filter (fun w => str_in w la') pivot_keywords)) 4))%Q.
Proof.
  apply hits_over_mono; [lia|]. apply filter_length_mono, lower_grows.
Qed.

End Monotone.

(** X3: text around an answer never lowers its score: on every question,
    the answer with anything before and after it scores at least as much as
    the answer alone. *)
Theorem grade_monotone_in_text (q : question) (a pre suf : string) :
  (fst (grade q (Some a)) <= fst (grade q (Some (pre ++ a ++ suf))))%Q.
Proof.
  assert (Hl : forall w, str_in w (lower a) = true ->
                         str_in w (lower (pre ++ a ++ suf)) = true).
  { intros w. unfold lower. rewrite !smap_append. apply str_in_mono. }
  assert (Hn : forall w, str_in w (normalize (Some a)) = true ->
                         str_in w (normalize (Some (pre ++ a ++ suf))) = true).
  { intros w. unfold normalize, upper. simpl or_empty.
    rewrite !re_sub_ws_append, !smap_append. apply str_in_mono. }
  unfold grade, check_sumifs, check_xlookup, check_countif, check_average,
    check_year, check_div0, check_sum_zero, check_pivot_steps.
  simpl or_empty. cbv zeta.
  repeat match goal with
         | |- context [String.eqb ?x ?y] => destruct (String.eqb x y)
         end.
  - apply sumifs_grows, Hn.
  - apply flag_grows. rewrite !orb_true_iff, !andb_true_iff.
    intros [H|[H1 H2]]; [left | right; split]; now apply Hn.
  - apply flag_grows, or_grows, Hn.
  - apply flag_grows, or_grows, Hn.
  - apply flag_grows, Hn.
  - cbn [fst]. apply div0_grows, Hl.
  - cbn [fst]. apply sum_zero_grows, Hl.
  - apply flag_grows, any_in_grows, Hl.
  - apply flag_grows, any_in_grows, Hl.
  - cbn [fst]. apply pivot_grows, Hl.
  - cbn [fst]. qconst.
Qed.

(** X4: two alternatives of the rules never decide a grade.  The AVERAGE
    rule gives 1.0 exactly when the normalized answer contains AVERAGE (the
    AVERAGEIF test adds nothing), and the SUM-returns-0 rule gives 1.0
    exactly when the lowercased answer contains text, format, and one of
    hidden and space (the formatted test adds nothing). *)
Theorem average_and_format_alternatives (ans : option string) :
  ((fst (check_average ans) == 1)%Q <-> Substring "AVERAGE" (normalize ans))
  /\ ((fst (check_average ans) == 0)%Q <-> ~ Substring "AVERAGE" (normalize ans))
  /\ ((fst (check_sum_zero ans) == 1)%Q <->
      Substring "text" (lower (or_empty ans))
      /\ Substring "format" (lower (or_empty ans))
      /\ (Substring "hidden" (lower (or_empty ans))
          \/ Substring "space" (lower (or_empty ans)))).
Proof.
  split; [|split].
  - unfold check_average. rewrite <- str_in_spec.
    destruct (str_in "AVERAGE" (normalize ans)) eqn:E; simpl.
    + split; [reflexivity | intros _; qconst].
    + destruct (str_in "AVERAGEIF" (normalize ans)) eqn:E'.
      * rewrite (str_in_longer "AVERAGE" "AVERAGEIF" _ eq_refl E') in E.
        discriminate.
      * simpl. split; [intros H; vm_compute in H; discriminate | discriminate].
  - unfold check_average. rewrite <- str_in_false.
    destruct (str_in "AVERAGE" (normalize ans)) eqn:E; simpl.
    + split; [intros H; vm_compute in H; discriminate | discriminate].
    + destruct (str_in "AVERAGEIF" (normalize ans)) eqn:E'.
      * rewrite (str_in_longer "AVERAGE" "AVERAGEIF" _ eq_refl E') in E.
        discriminate.
      * simpl. split; [reflexivity | intros _; qconst].
  - unfold check_sum_zero. rewrite <- !str_in_spec. cbv zeta. cbn [fst].
    set (t := lower (or_empty ans)).
    destruct (str_in "formatted" t) eqn:Ef.
    + rewrite (str_in_longer "format" "formatted" t eq_refl Ef).
      destruct (str_in "text" t), (str_in "hidden" t), (str_in "space" t);
        simpl; split;
        try (intros H; vm_compute in H; discriminate);
        try (intros _; vm_compute; reflexivity);
        try (intros _; tauto);
        intros (H1 & H2 & [H3|H3]); discriminate.
    + rewrite orb_false_r.
      destruct (str_in "text" t), (str_in "format" t), (str_in "hidden" t),
        (str_in "space" t);
        simpl; split;
        try (intros H; vm_compute in H; discriminate);
        try (intros _; vm_compute; reflexivity);
        try (intros _; tauto);
        intros (H1 & H2 & [H3|H3]); discriminate.
Qed.

Section Bands.

Lemma check_div0_hits (ans : option string) :
  fst (check_div0 ans) = Qmin 1.0 (hits_over (div0_hits ans) 2).
Proof.
  unfold check_div0, div0_hits. cbv zeta. cbn [fst].
  destruct (_ || _), (_ || _); reflexivity.
Qed.

Lemma check_sum_zero_hits (ans : option string) :
  fst (check_sum_zero ans) = Qmin 1.0 (hits_over (sum_zero_hits ans) 3).
Proof.
  unfold check_sum_zero, sum_zero_hits. cbv zeta. cbn [fst].
  destruct (str_in "text" _), (_ || _), (_ || _); reflexivity.
Qed.

Lemma check_pivot_steps_hits (ans : option string) :
  fst (check_pivot_steps ans) = Qmin 1.0 (hits_over (pivot_hits ans) 4).
Proof. reflexivity. Qed.

Lemma div0_hits_le (ans : option string) : (div0_hits ans <= 2)%nat.
Proof. unfold div0_hits. cbv zeta. destruct (_ || _), (_ || _); simpl; lia. Qed.

Lemma sum_zero_hits_le (ans : option string) : (sum_zero_hits ans <= 3)%nat.
Proof.
  unfold sum_zero_hits. cbv zeta.
  destruct (str_in "text" _), (_ || _), (_ || _); simpl; lia.
Qed.

Lemma pivot_hits_le (ans : option string) : (pivot_hits ans <= 8)%nat.
Proof. apply (filter_length_le _ pivot_keywords). Qed.

End Bands.

(** X5: how many keyword hits reach which confidence.  Each keyword rule
    scores the smaller of 1.0 and its number of hits over 2, 3 or 4.  The
    two-cause rule
    is High with both groups and Low with none; the three-reason rule is
    High with all three and Low with at most one; the chart rule is High
    from four of its eight keywords on (three give 0.75, Medium) and Low
    with at most one. *)
Theorem keyword_hits_confidence (ans : option string) :
  fst (check_div0 ans) = Qmin 1.0 (hits_over (div0_hits ans) 2)
  /\ fst (check_sum_zero ans) = Qmin 1.0 (hits_over (sum_zero_hits ans) 3)
  /\ fst (check_pivot_steps ans) = Qmin 1.0 (hits_over (pivot_hits ans) 4)
  /\ (confidence_label (fst (check_div0 ans)) = High <-> div0_hits ans = 2%nat)
  /\ (confidence_label (fst (check_div0 ans)) = Low <-> div0_hits ans = 0%nat)
  /\ (confidence_label (fst (check_sum_zero ans)) = High <-> sum_zero_hits ans = 3%nat)
  /\ (confidence_label (fst (check_sum_zero ans)) = Low <-> (sum_zero_hits ans <= 1)%nat)
  /\ (confidence_label (fst (check_pivot_steps ans)) = High <-> (4 <= pivot_hits ans)%nat)
  /\ (confidence_label (fst (check_pivot_steps ans)) = Low <-> (pivot_hits ans <= 1)%nat).
Proof.
  split; [apply check_div0_hits|].
  split; [apply check_sum_zero_hits|].
  split; [apply check_pivot_steps_hits|].
  rewrite check_div0_hits, check_sum_zero_hits, check_pivot_steps_hits.
  pose proof (div0_hits_le ans) as H2.
  pose proof (sum_zero_hits_le ans) as H3.
  pose proof (pivot_hits_le ans) as H8.
  generalize dependent (pivot_hits ans). intros h8 H8.
  generalize dependent (sum_zero_hits ans). intros h3 H3.
  generalize dependent (div0_hits ans). intros h2 H2.
  assert (A2 : (confidence_label (Qmin 1.0 (hits_over h2 2)) = High <-> h2 = 2%nat)
               /\ (confidence_label (Qmin 1.0 (hits_over h2 2)) = Low <-> h2 = 0%nat)).
  { do 3 (destruct h2 as [|h2];
          [split; split; intros H; try reflexivity; try lia;
           vm_compute in H; discriminate|]). exfalso. lia. }
  assert (A3 : (confidence_label (Qmin 1.0 (hits_over h3 3)) = High <-> h3 = 3%nat)
               /\ (confidence_label (Qmin 1.0 (hits_over h3 3)) = Low <-> (h3 <= 1)%nat)).
  { do 4 (destruct h3 as [|h3];
          [split; split; intros H; try reflexivity; try lia;
           vm_compute in H; discriminate|]). exfalso. lia. }
  assert (A8 : (confidence_label (Qmin 1.0 (hits_over h8 4)) = High <-> (4 <= h8)%nat)
               /\ (confidence_label (Qmin 1.0 (hits_over h8 4)) = Low <-> (h8 <= 1)%nat)).
  { do 9 (destruct h8 as [|h8];
          [split; split; intros H; try reflexivity; try lia;
           vm_compute in H; discriminate|]). exfalso. lia. }
  tauto.
Qed.

(** X6: the example answer shown with each question earns the full score;
    a session that submits the ten examples ends complete with an overall
    score of 100.0, every prompt among the strengths, and nothing to improve
    or to review. *)
Theorem example_answers_earn_full_score :
  (forall q : question,
      In q QUESTIONS -> (fst (grade q (Some (example_answer q))) == 1)%Q)
  /\ current_question (run example_run) = None
  /\ report_overall (run example_run) = Some 100.0%Q
  /\ strengths (build_report (run example_run)) = map prompt QUESTIONS
  /\ weaknesses (build_report (run example_run)) = []
  /\ review_queue (build_report (run example_run)) = [].
Proof.
  split.
  - intros q Hq. unfold QUESTIONS in Hq. simpl in Hq.
    repeat (destruct Hq as [<- | Hq]); try contradiction; vm_compute; reflexivity.
  - repeat split; vm_compute; reflexivity.
Qed.

Section Dispatch.

Lemma no_rule_starts_with_n (s t : string) :
  String "m" s ++ t <> "no rule".
Proof. rewrite append_cons. discriminate. Qed.

Ltac not_no_rule :=
  simpl; intros [H|[]];
  first [ discriminate H | exact (no_rule_starts_with_n _ _ H) ].

Lemma bank_question_has_rule (q : question) (ans : option string) :
  In (id q) bank_ids -> ~ In "no rule" (snd (grade q ans)).
Proof.
  intros Hq. unfold bank_ids, QUESTIONS in Hq. simpl in Hq. unfold grade.
  repeat (destruct Hq as [<- | Hq]); try contradiction;
    repeat match goal with
           | |- context [String.eqb ?a ?b] =>
               let v := eval vm_compute in (String.eqb a b) in
               change (String.eqb a b) with v
           end;
    cbv beta iota zeta;
    unfold check_sumifs, check_xlookup, check_countif, check_average, check_year,
      check_div0, check_sum_zero, check_pivot_steps;
    cbv zeta;
    repeat match goal with
           | |- context [if ?b then (_, _) else _] => destruct b
           end;
    not_no_rule.
Qed.

Lemma outside_bank_no_rule (q : question) (ans : option string) :
  ~ In (id q) bank_ids -> grade q ans = (0.0%Q, ["no rule"]).
Proof.
  intros Hq. unfold bank_ids, QUESTIONS in Hq. simpl in Hq. unfold grade.
  repeat match goal with
         | |- context [String.eqb ?a ?b] =>
             destruct (String.eqb_spec a b) as [E|_];
             [exfalso; apply Hq; rewrite E; intuition congruence|]
         end.
  reflexivity.
Qed.

End Dispatch.

(** X7: the default grade is for ids outside the bank only.  A question
    whose id is one of the ten never gets the note no rule, and any other id
    gets score 0.0 with that single note, whatever the answer. *)
Theorem no_rule_only_outside_bank (q : question) (ans : option string) :
  (In (id q) bank_ids -> ~ In "no rule" (snd (grade q ans)))
  /\ (~ In (id q) bank_ids -> grade q ans = (0.0%Q, ["no rule"]))
  /\ (In "no rule" (snd (grade q ans)) <-> ~ In (id q) bank_ids).
Proof.
  split; [apply bank_question_has_rule|].
  split; [apply outside_bank_no_rule|].
  split.
  - intros H Hin. exact (bank_question_has_rule q ans Hin H).
  - intros H. rewrite (outside_bank_no_rule q ans H). left. reflexivity.
Qed.

Section ScoreValues.

Lemma produced_in_values :
  Forall (fun v => existsb (Qeq_bool v) score_values = true)
    (map snd Binary64.produced).
Proof. vm_compute. repeat constructor. Qed.

Lemma values_avoid_boundary :
  Forall (fun v => Qle_bool v 0.4 = Qlt_bool v 0.4) (map snd Binary64.produced).
Proof. vm_compute. repeat constructor. Qed.

Lemma grade_score_value (q : question) (ans : option string) :
  exists v, In v score_values /\ (fst (grade q ans) == v)%Q.
Proof.
  pose proof (grade_score_produced q ans) as Hin.
  pose proof produced_in_values as Hall.
  rewrite Forall_forall in Hall. apply list_elem_of_In, Hall in Hin.
  apply existsb_exists in Hin as (v & Hv & E).
  exists v. split; [exact Hv | now apply Qeq_bool_iff].
Qed.

End ScoreValues.

(** X8: a score is always one of 0, 1/4, 1/3, 1/2, 2/3, 3/4, 9/10 and 1.  In
    particular no answer scores exactly 0.4, and none scores strictly between
    1/3 and 1/2. *)
Theorem grade_score_is_one_of_eight (q : question) (ans : option string) :
  (exists v, In v score_values /\ (fst (grade q ans) == v)%Q)
  /\ ~ (fst (grade q ans) == 0.4)%Q
  /\ ~ ((1 # 3) < fst (grade q ans) /\ fst (grade q ans) < (1 # 2))%Q.
Proof.
  destruct (grade_score_value q ans) as (v & Hv & E).
  split; [exists v; auto|]. rewrite E. clear E.
  unfold score_values in Hv. simpl in Hv.
  repeat (destruct Hv as [<- | Hv]); try contradiction;
    (split; [intros H; vm_compute in H; discriminate
            | intros [H1 H2]; vm_compute in H1, H2; discriminate]).
Qed.

(** ** Feedback templates *)

Section FeedbackFacts.

Ltac eval_dispatch :=
  repeat match goal with
         | |- context [String.eqb ?a ?b] =>
             let v := eval vm_compute in (String.eqb a b) in
             change (String.eqb a b) with v
         end;
  cbv beta iota zeta.

(** Both sides closed after the case split: the right side is evaluated
    first, then every case of the left side. *)
Ltac same_feedback :=
  match goal with
  | |- _ = ?R => let v := eval vm_compute in R in transitivity v;
                 [| vm_compute; reflexivity]
  end;
  unfold check_xlookup, check_countif, check_average, check_year,
    check_div0, check_sum_zero, check_pivot_steps, pivot_keywords, any_in;
  cbv zeta; cbn [List.filter existsb];
  repeat match goal with
         | |- context [if ?b then _ else _] => destruct b
         end;
  vm_compute; reflexivity.

Lemma feedback_xlookup (a : option string) :
  feedback_from_notes "q2" (snd (check_xlookup a))
  = feedback_from_notes "q2" (snd (check_xlookup None)).
Proof. same_feedback. Qed.

Lemma feedback_countif (a : option string) :
  feedback_from_notes "q3" (snd (check_countif a))
  = feedback_from_notes "q3" (snd (check_countif None)).
Proof. same_feedback. Qed.

Lemma feedback_average (a : option string) :
  feedback_from_notes "q4" (snd (check_average a))
  = feedback_from_notes "q4" (snd (check_average None)).
Proof. same_feedback. Qed.

Lemma feedback_year (a : option string) :
  feedback_from_notes "q5" (snd (check_year a))
  = feedback_from_notes "q5" (snd (check_year None)).
Proof. same_feedback. Qed.

Lemma feedback_div0 (a : option string) :
  feedback_from_notes "q6" (snd (check_div0 a))
  = feedback_from_notes "q6" (snd (check_div0 None)).
Proof. same_feedback. Qed.

Lemma feedback_sum_zero (a : option string) :
  feedback_from_notes "q7" (snd (check_sum_zero a))
  = feedback_from_notes "q7" (snd (check_sum_zero None)).
Proof. same_feedback. Qed.

Lemma feedback_pivot_steps (a : option string) :
  feedback_from_notes "q10" (snd (check_pivot_steps a))
  = feedback_from_notes "q10" (snd (check_pivot_steps None)).
Proof. same_feedback. Qed.

(** The feedback on the notes of a grade, compared with the feedback on the
    notes of the absent answer. *)
Lemma feedback_as_for_no_answer (q : question) (a : option string) :
  In (id q) bank_ids -> id q <> "q1" ->
  feedback_from_notes (id q) (snd (grade q a))
  = feedback_from_notes (id q) (snd (grade q None)).
Proof.
  intros Hq Hne. unfold bank_ids, QUESTIONS in Hq. simpl in Hq. unfold grade.
  destruct Hq as [E | Hq]; [exfalso; apply Hne; symmetry; exact E|]. clear Hne.
  repeat (destruct Hq as [E | Hq]; [rewrite <- E; clear E|]).
  all: try contradiction.
  all: eval_dispatch.
  - apply feedback_xlookup.
  - apply feedback_countif.
  - apply feedback_average.
  - apply feedback_year.
  - apply feedback_div0.
  - apply feedback_sum_zero.
  - destruct (any_in _ (lower (or_empty a))); vm_compute; reflexivity.
  - destruct (any_in _ (lower (or_empty a))); vm_compute; reflexivity.
  - apply feedback_pivot_steps.
Qed.

Lemma feedback_q1 (q : question) (a : option string) :
  id q = "q1" ->
  feedback_from_notes (id q) (snd (grade q a))
  = if str_in "SUMIFS" (normalize a)
    then "Good: you used SUMIFS. Tip: consider using Table references for robustness."
    else "Partial: SUMIF works for single conditions; SUMIFS handles multiple conditions.".
Proof.
  destruct q as [i t p e w]. cbn [id]. intros Hq. subst i.
  unfold grade. cbn [id]. eval_dispatch. unfold check_sumifs.
  destruct (str_in "SUMIFS" (normalize a)); [vm_compute; reflexivity|].
  destruct (str_in "SUMIF" (normalize a)); vm_compute; reflexivity.
Qed.

Lemma feedback_q2 (q : question) (a : option string) :
  id q = "q2" ->
  feedback_from_notes (id q) (snd (grade q a))
  = "Good: using XLOOKUP/INDEX+MATCH is robust to column re-ordering.".
Proof.
  destruct q as [i t p e w]. cbn [id]. intros Hq. subst i.
  unfold grade. cbn [id]. eval_dispatch. unfold check_xlookup.
  destruct (_ || _); vm_compute; reflexivity.
Qed.

End FeedbackFacts.

(** X9: the feedback shown for a grade depends on the question, not on the
    answer.  For every question but q1 the notes of any two answers get the
    same feedback; for q1 the feedback praises SUMIFS when it is used and is
    the SUMIF tip otherwise, also when neither function is present; for q2
    the feedback is the praise of XLOOKUP/INDEX+MATCH even when the rule
    detected neither. *)
Theorem feedback_depends_on_question :
  (forall (q : question) (a b : option string),
      In q QUESTIONS -> id q <> "q1" ->
      feedback_from_notes (id q) (snd (grade q a))
      = feedback_from_notes (id q) (snd (grade q b)))
  /\ (forall (q : question) (a : option string),
         id q = "q1" ->
         feedback_from_notes (id q) (snd (grade q a))
         = if str_in "SUMIFS" (normalize a)
           then "Good: you used SUMIFS. Tip: consider using Table references for robustness."
           else "Partial: SUMIF works for single conditions; SUMIFS handles multiple conditions.")
  /\ (forall (q : question) (a : option string),
         id q = "q2" ->
         feedback_from_notes (id q) (snd (grade q a))
         = "Good: using XLOOKUP/INDEX+MATCH is robust to column re-ordering.").
Proof.
  split; [|split].
  - intros q a b Hq Hne.
    assert (Hid : In (id q) bank_ids) by (apply in_map, Hq).
    now rewrite (feedback_as_for_no_answer q a Hid Hne),
      (feedback_as_for_no_answer q b Hid Hne).
  - apply feedback_q1.
  - apply feedback_q2.
Qed.

(** X10: the feedback is never empty: whatever the question id and the
    notes, at least one tip is shown. *)
Theorem feedback_never_empty (qid : string) (notes : list string) :
  (0 < String.length (feedback_from_notes qid notes))%nat.
Proof.
  unfold feedback_from_notes.
  generalize (lower (join " " notes)). intros joined.
  generalize (str_in "sumif" joined && negb (str_in "sumifs" joined)).
  generalize (str_in "sumifs" joined).
  generalize (str_in "xlookup" joined || str_in "index" joined).
  generalize (str_in "countif" joined || str_in "counta" joined).
  generalize (str_in "average" joined).
  generalize (str_in "year" joined).
  generalize (str_in "div0" joined || str_in "divide" joined).
  generalize (str_in "pivot" joined || str_in "chart" joined).
  generalize (startswith qid "q1" || startswith qid "q2" || startswith qid "q3"
              || startswith qid "q4" || startswith qid "q5").
  intros [] [] [] [] [] [] [] [] []; apply Nat.ltb_lt; vm_compute; reflexivity.
Qed.

(** X11: when the notes hold none of the words the templates look for, the
    feedback is the formula tip for an id that starts with q1, q2, q3, q4 or
    q5, and the generic tip for any other id.  The id q10 starts with q1: the
    hands-on question gets the formula tip, the debug question q6 the
    generic one. *)
Theorem feedback_fallback (qid : string) (notes : list string) :
  any_in feedback_keywords (lower (join " " notes)) = false ->
  feedback_from_notes qid notes
  = (if existsb (startswith qid) formula_ids then formula_tip else generic_tip)
  /\ feedback_from_notes "q10" notes = formula_tip
  /\ feedback_from_notes "q6" notes = generic_tip.
Proof.
  intros H. unfold any_in, feedback_keywords in H. cbn [existsb] in H.
  repeat (apply orb_false_iff in H as [? H]).
  assert (G : forall id',
             feedback_from_notes id' notes
             = if existsb (startswith id') formula_ids then formula_tip
               else generic_tip).
  { intros id'. unfold feedback_from_notes. cbv zeta.
    set (joined := lower (join " " notes)) in *.
    repeat match goal with
           | E : str_in ?w joined = false |- _ => rewrite E; clear E
           end.
    unfold formula_ids. cbn [existsb andb orb negb].
    destruct (startswith id' "q1"), (startswith id' "q2"), (startswith id' "q3"),
      (startswith id' "q4"), (startswith id' "q5"); reflexivity. }
  split; [apply G|]. split; rewrite G; reflexivity.
Qed.

Lemma feedback_fallback_witness :
  any_in feedback_keywords (lower (join " " ["skipped"])) = false
  /\ feedback_from_notes "q10" ["skipped"] = formula_tip
  /\ feedback_from_notes "q9" ["skipped"] = generic_tip.
Proof.
  split; [reflexivity|].
  split.
  - exact (proj1 (proj2 (feedback_fallback "q9" ["skipped"] eq_refl))).
  - vm_compute. reflexivity.
Defined.
(** ** Session state machine *)

Section SessionFacts.

Lemma ids_nodup : NoDup bank_ids.
Proof. apply (bool_decide_unpack _). vm_compute. reflexivity. Qed.

Lemma id_identifies (q q' : question) :
  In q QUESTIONS -> In q' QUESTIONS -> id q = id q' -> q = q'.
Proof. apply nodup_map_inj, ids_nodup. Qed.

Lemma firstn_snoc {A} (l : list A) (n : nat) (x : A) :
  nth_error l n = Some x -> firstn (S n) l = (firstn n l ++ [x])%list.
Proof.
  revert n. induction l as [|a l IH]; intros [|n] H; try discriminate.
  - now inversion H.
  - simpl in H. change (a :: firstn (S n) l = a :: (firstn n l ++ [x])%list).
    now rewrite (IH n H).
Qed.

Lemma In_firstn {A} (l : list A) (n : nat) (x : A) : In x (firstn n l) -> In x l.
Proof.
  revert n. induction l as [|a l IH]; intros [|n]; simpl; try tauto.
  intros [->|H]; eauto.
Qed.

(** In a list without repetition the element at index [n] is not among the
    first [n]. *)
Lemma nth_not_in_firstn {A} (l : list A) (n : nat) (x : A) :
  NoDup l -> nth_error l n = Some x -> ~ In x (firstn n l).
Proof.
  intros Hnd. revert n. induction Hnd as [|a l Ha Hnd IH]; intros [|n] H;
    try discriminate; simpl; [tauto|].
  simpl in H. intros [->|Hin].
  - apply Ha, list_elem_of_In. eapply nth_error_In, H.
  - exact (IH n H Hin).
Qed.

Lemma current_question_nth (st : session) (q : question) :
  current_question st = Some q ->
  started st = true /\ nth_error QUESTIONS (current_q st) = Some q
  /\ (current_q st < length QUESTIONS)%nat /\ In q QUESTIONS.
Proof.
  unfold current_question. destruct (started st); [|discriminate].
  intros H. split; [reflexivity|]. split; [exact H|]. split.
  - apply nth_error_Some. congruence.
  - eapply nth_error_In, H.
Qed.

Lemma asked_next (st : session) (q : question) (st' : session) :
  current_question st = Some q -> current_q st' = (current_q st + 1)%nat ->
  map id (asked st') = (map id (asked st) ++ [id q])%list.
Proof.
  intros Hq Hn. apply current_question_nth in Hq as (_ & Hq & _).
  unfold asked. rewrite Hn, Nat.add_1_r, (firstn_snoc _ _ _ Hq), map_app.
  reflexivity.
Qed.

(** The id of the question on screen has no recorded response yet. *)
Lemma current_id_fresh (st : session) (q : question) :
  current_question st = Some q -> ~ In (id q) (map id (asked st)).
Proof.
  intros Hq. apply current_question_nth in Hq as (_ & Hq & _).
  unfold asked. rewrite <- firstn_map.
  apply nth_not_in_firstn; [exact ids_nodup|].
  unfold bank_ids. now rewrite nth_error_map, Hq.
Qed.

Lemma skip_score_produced : In 0.0%Q (map snd Binary64.produced).
Proof. vm_compute. tauto. Qed.

Lemma init_well_run : well_run init_session.
Proof.
  split; [simpl; lia|]. split.
  - intros k. simpl. rewrite lookup_empty. split; [intros [x H]; discriminate | tauto].
  - intros k v. simpl. rewrite lookup_empty. discriminate.
Qed.

Lemma handle_well_run (st : session) (a : action) :
  well_run st -> well_run (handle st a).
Proof.
  intros (Hn & Hr & Hs). destruct a as [|answer pivot_note|]; simpl.
  - exact init_well_run.
  - destruct (current_question st) as [q|] eqn:Hq; [|exact (conj Hn (conj Hr Hs))].
    pose proof (current_question_nth st q Hq) as (_ & _ & Hlt & _).
    unfold submit. destruct (grade q (Some answer)) as [score ns] eqn:G.
    split; [cbn [current_q]; lia|]. split.
    + intros k.
      match goal with
      | |- context [asked ?s'] => rewrite (asked_next st q s' Hq eq_refl)
      end.
      rewrite in_app_iff. simpl.
      rewrite lookup_insert_is_Some, Hr.
      destruct (decide (id q = k)); intuition congruence.
    + intros k v. simpl. rewrite lookup_insert.
      destruct (decide (id q = k)); [|apply Hs].
      intros [= <-]. change score with (fst (score, ns)). rewrite <- G.
      apply grade_score_produced.
  - destruct (current_question st) as [q|] eqn:Hq; [|exact (conj Hn (conj Hr Hs))].
    pose proof (current_question_nth st q Hq) as (_ & _ & Hlt & _).
    unfold skip.
    split; [cbn [current_q]; lia|]. split.
    + intros k.
      match goal with
      | |- context [asked ?s'] => rewrite (asked_next st q s' Hq eq_refl)
      end.
      rewrite in_app_iff. simpl.
      rewrite lookup_insert_is_Some, Hr.
      destruct (decide (id q = k)); intuition congruence.
    + intros k v. simpl. rewrite lookup_insert.
      destruct (decide (id q = k)); [|apply Hs].
      intros [= <-]. exact skip_score_produced.
Qed.

Lemma fold_well_run (acts : list action) (st : session) :
  well_run st -> well_run (fold_left handle acts st).
Proof.
  revert st. induction acts as [|a acts IH]; intros st H; simpl; [exact H|].
  apply IH, handle_well_run, H.
Qed.

Lemma run_well_run (acts : list action) : well_run (run acts).
Proof. apply fold_well_run, init_well_run. Qed.

Lemma answered_is_Some (st : session) (q : question) :
  answered st q = true <-> is_Some (responses st !! id q).
Proof.
  unfold answered, has_key. destruct (responses st !! id q); split;
    try discriminate; eauto. intros [x H]. discriminate.
Qed.

Lemma has_grade_is_Some (st : session) (q : question) :
  has_grade st q = true <-> is_Some (scores st !! id q).
Proof.
  unfold has_grade, has_key. destruct (scores st !! id q); split;
    try discriminate; eauto. intros [x H]. discriminate.
Qed.

End SessionFacts.

(** X12: in every reachable session the question index stays within the
    bank, and the answered questions are exactly the first [current_q]
    questions of the bank, each with a recorded score and notes. *)
Theorem session_progress (acts : list action) :
  (current_q (run acts) <= length QUESTIONS)%nat
  /\ (forall q : question,
         In q QUESTIONS ->
         (answered (run acts) q = true <-> In q (asked (run acts))))
  /\ (forall q : question, answered (run acts) q = has_grade (run acts) q)
  /\ (forall q : question,
         answered (run acts) q = is_some (notes (run acts) !! id q)).
Proof.
  destruct (run_well_run acts) as (Hn & Hr & _).
  destruct (run_consistent acts) as [Hd1 Hd2].
  split; [exact Hn|]. split; [|split].
  - intros q Hq. rewrite answered_is_Some, Hr. split.
    + intros Hin. apply in_map_iff in Hin as (q' & E & Hq').
      assert (q' = q) as <-; [|exact Hq'].
      apply id_identifies; [eapply In_firstn, Hq' | exact Hq | exact E].
    + apply in_map.
  - intros q. unfold answered, has_grade, has_key.
    assert (H : is_Some (responses (run acts) !! id q)
                <-> is_Some (scores (run acts) !! id q)).
    { rewrite <- !elem_of_dom. now rewrite Hd1. }
    destruct (responses (run acts) !! id q), (scores (run acts) !! id q);
      try reflexivity; exfalso.
    + destruct (proj1 H) as [x Hx]; [eauto | discriminate].
    + destruct (proj2 H) as [x Hx]; [eauto | discriminate].
  - intros q. unfold answered, has_key, is_some.
    assert (H : is_Some (responses (run acts) !! id q)
                <-> is_Some (notes (run acts) !! id q)).
    { rewrite <- !elem_of_dom. now rewrite Hd1, Hd2. }
    destruct (responses (run acts) !! id q), (notes (run acts) !! id q);
      try reflexivity; exfalso.
    + destruct (proj1 H) as [x Hx]; [eauto | discriminate].
    + destruct (proj2 H) as [x Hx]; [eauto | discriminate].
Qed.

(** X13: Submit and Skip never change what is already recorded: in a
    reachable session, every recorded response, score and note list is still
    there, unchanged, after the action.  Only Start/Reset clears them. *)
Theorem recorded_grades_are_kept (acts : list action) (a : action) :
  is_answer a = true ->
  (forall k v, responses (run acts) !! k = Some v ->
               responses (handle (run acts) a) !! k = Some v)
  /\ (forall k v, scores (run acts) !! k = Some v ->
                  scores (handle (run acts) a) !! k = Some v)
  /\ (forall k v, notes (run acts) !! k = Some v ->
                  notes (handle (run acts) a) !! k = Some v).
Proof.
  intros Ha.
  destruct (run_well_run acts) as (_ & Hr & _).
  destruct (run_consistent acts) as [Hd1 Hd2].
  set (st := run acts) in *.
  assert (Hfresh : forall q k, current_question st = Some q ->
                     (is_Some (responses st !! k) \/ is_Some (scores st !! k)
                      \/ is_Some (notes st !! k)) -> id q <> k).
  { intros q k Hq Hk <-. apply (current_id_fresh st q Hq), Hr.
    rewrite <- !elem_of_dom in *. rewrite <- Hd2, <- Hd1 in Hk. tauto. }
  destruct a as [|answer pivot_note|]; [discriminate| |]; simpl;
    destruct (current_question st) as [q|] eqn:Hq; try tauto.
  - unfold submit. destruct (grade q (Some answer)) as [score ns].
    repeat split; intros k v H; simpl; rewrite lookup_insert_ne; try exact H;
      apply (Hfresh q k eq_refl); rewrite H; eauto.
  - unfold skip.
    repeat split; intros k v H; simpl; rewrite lookup_insert_ne; try exact H;
      apply (Hfresh q k eq_refl); rewrite H; eauto.
Qed.

Lemma recorded_grades_are_kept_witness :
  let acts := [Start; Submit "=SUMIFS(B:B, A:A, x)" None] in
  is_answer Skip = true
  /\ scores (run acts) !! "q1" = Some 1.0%Q
  /\ scores (handle (run acts) Skip) !! "q1" = Some 1.0%Q.
Proof.
  intros acts. split; [reflexivity|].
  assert (H : scores (run acts) !! "q1" = Some 1.0%Q) by (vm_compute; reflexivity).
  split; [exact H|].
  exact (proj1 (proj2 (recorded_grades_are_kept acts Skip eq_refl)) "q1" 1.0%Q H).
Defined.

Section Completion.

Lemma handle_answer_index (st : session) (a : action) :
  is_answer a = true -> started st = true ->
  (current_q st <= length QUESTIONS)%nat ->
  started (handle st a) = true
  /\ current_q (handle st a) = Nat.min (current_q st + 1) (length QUESTIONS).
Proof.
  intros Ha Hs Hn. unfold handle, current_question. rewrite Hs.
  destruct (nth_error QUESTIONS (current_q st)) as [q|] eqn:Hq.
  - assert (current_q st < length QUESTIONS)%nat
      by (apply nth_error_Some; congruence).
    destruct a as [|answer pn|]; [discriminate| |].
    + unfold submit. destruct (grade q (Some answer)). cbn [started current_q].
      split; [exact Hs | lia].
    + unfold skip. cbn [started current_q]. split; [exact Hs | lia].
  - apply nth_error_None in Hq.
    destruct a; [discriminate| |]; split; try exact Hs; lia.
Qed.

Lemma fold_answer_index (acts : list action) (st : session) :
  forallb is_answer acts = true -> started st = true ->
  (current_q st <= length QUESTIONS)%nat ->
  started (fold_left handle acts st) = true
  /\ current_q (fold_left handle acts st)
     = Nat.min (current_q st + length acts) (length QUESTIONS).
Proof.
  revert st. induction acts as [|a acts IH]; intros st Ha Hs Hn.
  - cbn [fold_left length]. split; [exact Hs | lia].
  - simpl in Ha. apply andb_true_iff in Ha as [Ha Hacts].
    destruct (handle_answer_index st a Ha Hs Hn) as [Hs' Hn'].
    destruct (IH (handle st a) Hacts Hs') as [Hs'' Hn'']; [lia|].
    simpl fold_left. split; [exact Hs''|].
    rewrite Hn'', Hn'. cbn [length]. lia.
Qed.

End Completion.

(** X14: after Start/Reset, each Submit or Skip moves one question forward
    until the bank is exhausted: after [n] of them the index is the smaller
    of [n] and 10.  From the tenth on every question is answered, no question
    is on screen, and a further Submit or Skip leaves the session as it
    is. *)
Theorem interview_completes (acts : list action) :
  forallb is_answer acts = true ->
  current_q (run (Start :: acts)) = Nat.min (length acts) (length QUESTIONS)
  /\ (length acts < length QUESTIONS ->
      current_question (run (Start :: acts)) = nth_error QUESTIONS (length acts))%nat
  /\ (length QUESTIONS <= length acts ->
      current_question (run (Start :: acts)) = None
      /\ (forall q, In q QUESTIONS -> answered (run (Start :: acts)) q = true)
      /\ (forall a, is_answer a = true ->
                    handle (run (Start :: acts)) a = run (Start :: acts)))%nat.
Proof.
  intros Ha.
  assert (Hrun : run (Start :: acts) = fold_left handle acts (start_reset init_session))
    by reflexivity.
  destruct (fold_answer_index acts (start_reset init_session) Ha eq_refl)
    as [Hs Hn]; [cbn [current_q start_reset]; lia|].
  rewrite <- Hrun in Hs, Hn. cbn [current_q start_reset Nat.add] in Hn.
  split; [exact Hn|]. split.
  - intros Hlt. unfold current_question. rewrite Hs, Hn. f_equal. lia.
  - intros Hge.
    assert (Hq : current_q (run (Start :: acts)) = length QUESTIONS) by lia.
    assert (Hnone : current_question (run (Start :: acts)) = None).
    { unfold current_question. rewrite Hs, Hq. now apply nth_error_None. }
    split; [exact Hnone|]. split.
    + intros q Hin.
      destruct (run_well_run (Start :: acts)) as (_ & Hr & _).
      apply answered_is_Some, Hr. unfold asked. rewrite Hq, firstn_all.
      now apply in_map.
    + intros a Hans. destruct a; [discriminate| |]; simpl; now rewrite Hnone.
Qed.

Lemma interview_completes_witness :
  let acts := repeat Skip 12 in
  forallb is_answer acts = true
  /\ current_q (run (Start :: acts)) = 10%nat
  /\ current_q (run (Start :: acts)) = Nat.min (length acts) (length QUESTIONS).
Proof.
  intros acts. split; [reflexivity|]. split; [vm_compute; reflexivity|].
  exact (proj1 (interview_completes acts eq_refl)).
Defined.

(** X15: a skipped question is always flagged: right after Skip its prompt
    is in the review queue with an empty answer and the note skipped, it is
    among the weaknesses, it is not among the strengths, and its confidence
    is Low. *)
Theorem skipped_question_is_flagged (st : session) (q : question) :
  current_question st = Some q ->
  In (mkReview (prompt q) EmptyString ["skipped"])
     (review_queue (build_report (handle st Skip)))
  /\ In (prompt q, feedback_from_notes (id q) ["skipped"])
        (weaknesses (build_report (handle st Skip)))
  /\ ~ In (prompt q) (strengths (build_report (handle st Skip)))
  /\ confidence_label (score_of (handle st Skip) q) = Low.
Proof.
  intros Hq. pose proof (current_question_nth st q Hq) as (_ & _ & _ & Hin).
  simpl handle. rewrite Hq.
  set (st' := skip q st).
  assert (Ha : answered st' q = true).
  { unfold answered, has_key, st', skip. simpl. now rewrite lookup_insert_eq. }
  assert (Hsc : score_of st' q = 0.0%Q).
  { unfold score_of, get, st', skip. simpl. now rewrite lookup_insert_eq. }
  assert (Hre : review_entry st' q = mkReview (prompt q) EmptyString ["skipped"]).
  { unfold review_entry, get, st', skip. simpl. now rewrite !lookup_insert_eq. }
  assert (Hwe : weak_entry st' q = (prompt q, feedback_from_notes (id q) ["skipped"])).
  { unfold weak_entry, get, st', skip. simpl. now rewrite !lookup_insert_eq. }
  unfold build_report. rewrite build_report_of_spec.
  cbn [review_queue weaknesses strengths].
  split; [|split; [|split]].
  - rewrite <- Hre. apply in_map, filter_In. split; [exact Hin|].
    unfold is_flagged. now rewrite Ha, Hsc.
  - rewrite <- Hwe. apply in_map, filter_In. split; [exact Hin|].
    unfold is_weak. now rewrite Ha, Hsc.
  - intros H. apply in_map_iff in H as (q' & E & Hq').
    apply filter_In in Hq' as [Hq' Hs].
    assert (q' = q) as -> by (apply prompt_identifies; auto).
    unfold is_strong in Hs. rewrite Ha, Hsc in Hs. discriminate.
  - now rewrite Hsc.
Qed.

Lemma skipped_question_is_flagged_witness :
  let st := run [Start; Submit "=SUMIFS(B:B, A:A, x)" None] in
  exists q,
    current_question st = Some q /\ id q = "q2"
    /\ In (mkReview (prompt q) EmptyString ["skipped"])
          (review_queue (build_report (handle st Skip))).
Proof.
  intros st.
  assert (H : current_question st = nth_error QUESTIONS 1) by (vm_compute; reflexivity).
  simpl nth_error in H.
  eexists. split; [exact H|]. split; [reflexivity|].
  exact (proj1 (skipped_question_is_flagged st _ H)).
Defined.

Section Upload.

Lemma overall_of_scores (qs : list question) (st st' : session) :
  scores st = scores st' -> overall_of qs st = overall_of qs st'.
Proof. intros H. unfold overall_of, score_sum_of. now rewrite H. Qed.

End Upload.

(** X16: the uploaded file never changes a score.  Submitting an answer
    with a validator note records the same response and the same score, and
    gives the same overall score, as submitting it without; the note is
    appended to the notes of a hands-on question and dropped for any other
    question. *)
Theorem upload_never_changes_score
    (q : question) (answer : string) (pivot_note : option string) (st : session) :
  responses (submit q answer pivot_note st) = responses (submit q answer None st)
  /\ scores (submit q answer pivot_note st) = scores (submit q answer None st)
  /\ current_q (submit q answer pivot_note st) = current_q (submit q answer None st)
  /\ overall_of QUESTIONS (submit q answer pivot_note st)
     = overall_of QUESTIONS (submit q answer None st)
  /\ notes (submit q answer pivot_note st) !! id q
     = Some (match type q with
             | hands_on =>
                 if truthy pivot_note
                 then (snd (grade q (Some answer)) ++ [or_empty pivot_note])%list
                 else snd (grade q (Some answer))
             | _ => snd (grade q (Some answer))
             end).
Proof.
  assert (Hs : scores (submit q answer pivot_note st) = scores (submit q answer None st)).
  { unfold submit. destruct (grade q (Some answer)). reflexivity. }
  split; [unfold submit; destruct (grade q (Some answer)); reflexivity|].
  split; [exact Hs|].
  split; [unfold submit; destruct (grade q (Some answer)); reflexivity|].
  split; [exact (overall_of_scores _ _ _ Hs)|].
  unfold submit. destruct (grade q (Some answer)) as [score ns]. simpl.
  now rewrite lookup_insert_eq.
Qed.

Section ReachableScores.

Variable st : session.
Hypothesis reachable : well_run st.

Lemma score_of_produced (q : question) : In (score_of st q) (map snd Binary64.produced).
Proof.
  destruct reachable as (_ & _ & Hs). unfold score_of, get.
  destruct (scores st !! id q) as [v|] eqn:E; [exact (Hs _ _ E)|].
  exact skip_score_produced.
Qed.

Lemma weak_is_flagged (q : question) : is_weak st q = is_flagged st q.
Proof.
  unfold is_weak, is_flagged. f_equal.
  pose proof values_avoid_boundary as H. rewrite Forall_forall in H.
  apply H, list_elem_of_In, score_of_produced.
Qed.

Lemma produced_in_unit :
  Forall (fun v => Qle_bool 0 v && Qle_bool v 1 = true) (map snd Binary64.produced).
Proof. vm_compute. repeat constructor. Qed.

Lemma score_of_unit (q : question) : (0 <= score_of st q /\ score_of st q <= 1)%Q.
Proof.
  pose proof produced_in_unit as H. rewrite Forall_forall in H.
  specialize (H _ (proj2 (list_elem_of_In _ _) (score_of_produced q))).
  apply andb_true_iff in H as [H0 H1]. split; now apply Qle_bool_iff.
Qed.

End ReachableScores.

(** X17: in every reachable session the areas to improve and the review
    queue list the same questions, in the same order: no recorded score is
    exactly 0.4, so the two thresholds never tell an answer apart. *)
Theorem weaknesses_match_review_queue (acts : list action) :
  map fst (weaknesses (build_report (run acts)))
  = map r_question (review_queue (build_report (run acts))).
Proof.
  unfold build_report. rewrite build_report_of_spec.
  cbn [weaknesses review_queue]. rewrite !map_map.
  rewrite (filter_ext _ _ (weak_is_flagged (run acts) (run_well_run acts))).
  reflexivity.
Qed.

Section Lists.

Variable st : session.

Lemma strong_not_weak (q : question) : is_strong st q = true -> is_weak st q = false.
Proof.
  unfold is_strong, is_weak. intros [_ H]%andb_true_iff.
  apply andb_false_iff. right. apply Qle_bool_false.
  apply Qle_bool_iff in H. apply Qlt_le_trans with (0.8)%Q; [qconst | exact H].
Qed.

Lemma flagged_is_weak (q : question) : is_flagged st q = true -> is_weak st q = true.
Proof.
  unfold is_flagged, is_weak. intros [Ha H]%andb_true_iff. rewrite Ha.
  apply Qlt_bool_iff in H. apply Qle_bool_iff. now apply Qlt_le_weak.
Qed.

Lemma strong_is_high (q : question) :
  is_strong st q = (answered st q && match confidence_label (score_of st q) with
                                     | High => true
                                     | _ => false
                                     end).
Proof.
  unfold is_strong, confidence_label. f_equal.
  destruct (Qle_bool 0.8 (score_of st q)); [reflexivity|].
  destruct (Qle_bool 0.4 (score_of st q)); reflexivity.
Qed.

End Lists.

(** X18: how the three lists of a report relate, in any session state.
    The strengths are exactly the answered questions of High confidence, in
    bank order; no prompt is both a strength and a weakness; every prompt in
    the review queue is also among the weaknesses. *)
Theorem report_lists_relate (st : session) :
  strengths (build_report st)
  = map prompt
      (List.filter
         (fun q => answered st q && match confidence_label (score_of st q) with
                                    | High => true
                                    | _ => false
                                    end) QUESTIONS)
  /\ (forall p, In p (strengths (build_report st)) ->
                ~ In p (map fst (weaknesses (build_report st))))
  /\ (forall p, In p (map r_question (review_queue (build_report st))) ->
                In p (map fst (weaknesses (build_report st)))).
Proof.
  unfold build_report. rewrite build_report_of_spec.
  cbn [strengths weaknesses review_queue]. rewrite !map_map.
  split; [|split].
  - f_equal. apply filter_ext, strong_is_high.
  - intros p Hs Hw.
    apply in_map_iff in Hs as (q & <- & Hq). apply filter_In in Hq as [Hq Hs].
    apply in_map_iff in Hw as (q' & E & Hq'). apply filter_In in Hq' as [Hq' Hw].
    simpl in E. assert (q' = q) as -> by (apply prompt_identifies; auto).
    rewrite (strong_not_weak st q Hs) in Hw. discriminate.
  - intros p H. apply in_map_iff in H as (q & <- & Hq).
    apply filter_In in Hq as [Hq Hf].
    apply in_map_iff. exists q. split; [reflexivity|].
    apply filter_In. split; [exact Hq | now apply flagged_is_weak].
Qed.

Section OverallBounds.

Lemma round_half_even_between (x : Q) (a b : Z) :
  (inject_Z a <= x)%Q -> (x <= inject_Z b)%Q ->
  (a <= round_half_even x <= b)%Z.
Proof.
  intros Ha Hb. unfold round_half_even.
  assert (Hfa : (a <= Qfloor x)%Z).
  { rewrite <- (Qfloor_Z a). now apply Qfloor_resp_le. }
  assert (Hfb : (Qfloor x <= b)%Z).
  { rewrite <- (Qfloor_Z b). now apply Qfloor_resp_le. }
  destruct (Z.eq_dec (Qfloor x) b) as [E|Hne].
  - assert (Hx : (x - inject_Z (Qfloor x) <= 0)%Q).
    { rewrite E. unfold Qminus. rewrite <- (Qplus_opp_r (inject_Z b)).
      apply Qplus_le_compat; [exact Hb | apply Qle_refl]. }
    destruct (Qcompare_spec (x - inject_Z (Qfloor x)) (1 # 2)) as [H|H|H].
    + rewrite H in Hx. exfalso. revert Hx. apply Qlt_not_le. reflexivity.
    + lia.
    + exfalso. apply (Qlt_not_le _ _ H).
      apply Qle_trans with 0%Q; [exact Hx | discriminate].
  - destruct (Qcompare (x - inject_Z (Qfloor x)) (1 # 2));
      try destruct (Z.even (Qfloor x)); lia.
Qed.

Lemma round1_between (x : Q) :
  (0 <= x)%Q -> (x <= 100)%Q -> (0 <= round1 x /\ round1 x <= 100)%Q.
Proof.
  intros H0 H1. unfold round1.
  destruct (round_half_even_between (x * 10) 0 1000) as [Hl Hu].
  - change (inject_Z 0) with (0 * 10)%Q.
    apply Qmult_le_compat_r; [exact H0 | discriminate].
  - change (inject_Z 1000) with (100 * 10)%Q.
    apply Qmult_le_compat_r; [exact H1 | discriminate].
  - split.
    + apply Qle_shift_div_l; [reflexivity|].
      rewrite Qmult_0_l. change 0%Q with (inject_Z 0). now rewrite <- Zle_Qle.
    + apply Qle_shift_div_r; [reflexivity|].
      change (100 * 10)%Q with (inject_Z 1000). now rewrite <- Zle_Qle.
Qed.

Variable st : session.
Hypothesis reachable : well_run st.

Lemma score_sum_between (qs : list question) (acc : Q) :
  (forall q, In q qs -> (0 <= weight q)%Z) ->
  (acc
   <= fold_left
        (fun acc q => acc + get (scores st) (id q) 0.0 * inject_Z (weight q))
        qs acc
   /\ fold_left
        (fun acc q => acc + get (scores st) (id q) 0.0 * inject_Z (weight q))
        qs acc
      <= acc + inject_Z (sumZ (map weight qs)))%Q.
Proof.
  revert acc. induction qs as [|q qs IH]; intros acc Hw.
  - simpl. split; [apply Qle_refl|]. rewrite Qplus_0_r. apply Qle_refl.
  - assert (Hq : (0 <= weight q)%Z) by (apply Hw; left; reflexivity).
    assert (Hws : forall q', In q' qs -> (0 <= weight q')%Z)
      by (intros q' H; apply Hw; right; exact H).
    simpl fold_left. fold (score_of st q).
    destruct (IH (acc + score_of st q * inject_Z (weight q))%Q Hws) as [Hl Hu].
    destruct (score_of_unit st reachable q) as [H0 H1].
    assert (Hwq : (0 <= inject_Z (weight q))%Q)
      by (change 0%Q with (inject_Z 0); now rewrite <- Zle_Qle).
    assert (Hp0 : (0 <= score_of st q * inject_Z (weight q))%Q)
      by (apply Qmult_le_0_compat; assumption).
    assert (Hp1 : (score_of st q * inject_Z (weight q) <= inject_Z (weight q))%Q).
    { rewrite <- (Qmult_1_l (inject_Z (weight q))) at 2.
      apply Qmult_le_compat_r; assumption. }
    split.
    + eapply Qle_trans; [|exact Hl].
      rewrite <- (Qplus_0_r acc) at 1. apply Qplus_le_compat; [apply Qle_refl | exact Hp0].
    + eapply Qle_trans; [exact Hu|].
      simpl map. simpl sumZ. rewrite inject_Z_plus, Qplus_assoc.
      apply Qplus_le_compat; [|apply Qle_refl].
      apply Qplus_le_compat; [apply Qle_refl | exact Hp1].
Qed.

Lemma overall_of_between : (0 <= overall_of QUESTIONS st /\ overall_of QUESTIONS st <= 100)%Q.
Proof.
  unfold overall_of. change (total_w_of QUESTIONS) with 23%Z.
  cbv beta iota zeta. change (23 =? 0)%Z with false. cbv iota.
  destruct (score_sum_between QUESTIONS 0) as [Hl Hu].
  { intros q Hq. unfold QUESTIONS in Hq. simpl in Hq.
    repeat (destruct Hq as [<- | Hq]); try contradiction; simpl; lia. }
  fold (score_sum_of QUESTIONS st) in Hl, Hu.
  change (sumZ (map weight QUESTIONS)) with 23%Z in Hu. rewrite Qplus_0_l in Hu.
  apply round1_between.
  - apply Qmult_le_0_compat; [discriminate|].
    apply Qle_shift_div_l; [reflexivity|]. now rewrite Qmult_0_l.
  - rewrite <- (Qmult_1_r 100) at 2. apply Qmult_le_l; [reflexivity|].
    apply Qle_shift_div_r; [reflexivity|]. now rewrite Qmult_1_l.
Qed.

End OverallBounds.

(** X19: in every reachable session the overall score lies between 0 and
    100, in the header and in the report. *)
Theorem overall_within_bounds (acts : list action) :
  (0 <= header_overall (run acts) /\ header_overall (run acts) <= 100)%Q
  /\ (forall o, report_overall (run acts) = Some o -> (0 <= o /\ o <= 100)%Q).
Proof.
  pose proof (overall_of_between (run acts) (run_well_run acts)) as H.
  unfold header_overall, report_overall.
  destruct (decide (responses (run acts) = ∅)); split.
  - split; discriminate.
  - discriminate.
  - exact H.
  - now intros o [= <-].
Qed.

(** ** Tabular validator, continued *)

Section ValidatorOutcome.

Context `{Pandas}.

Lemma body_outcome (df : DataFrame) (r : outcome) :
  validate_body df = Ok r ->
  (is_success r
   /\ exists d s, find_columns (columns df) = Ok (Some d, Some s))
  \/ is_failure r.
Proof.
  unfold validate_body.
  destruct (map_exc strip_lower (columns df)) as [cols|e]; [|discriminate].
  rewrite bind_Ok.
  destruct (find_columns (columns df)) as [[date_col sales_col]|e]; [|discriminate].
  rewrite bind_Ok.
  destruct date_col as [d|], sales_col as [s|];
    try (intros [= <-]; right; repeat split; apply Nat.ltb_lt; reflexivity).
  destruct (to_datetime df d) as [df2|e]; [|discriminate]. rewrite bind_Ok.
  destruct (isna_all df2 d) as [[|]|e]; [| |discriminate]; rewrite bind_Ok.
  - intros [= <-]. right. repeat split. apply Nat.ltb_lt. reflexivity.
  - destruct (to_numeric df2 s) as [df3|e]; [|discriminate]. rewrite bind_Ok.
    destruct (monthly_sums df3 d s) as [monthly|e]; [|discriminate]. rewrite bind_Ok.
    destruct (if (0 <? len monthly)%nat then first_total monthly s else Ok "N/A")
      as [sample|e]; [|discriminate].
    rewrite bind_Ok. intros [= <-]. left.
    split; [repeat split | exists d, s; reflexivity].
Qed.

Lemma error_note_not_empty (e : string) :
  (0 < String.length ("Pivot validation error: " ++ e))%nat.
Proof. rewrite append_cons. simpl. lia. Qed.

End ValidatorOutcome.

(** X20: the validator answers in one of two shapes.  Either [ok] is true,
    the aggregate is present, the note starts with Pivot OK and both
    columns were found; or [ok] is false, there is no aggregate and the note
    is not empty.  So the aggregate is present exactly when [ok] is true. *)
Theorem validator_outcome_shape `{Pandas} (df : DataFrame) :
  (is_success (pivot_validate_dataframe df)
   \/ is_failure (pivot_validate_dataframe df))
  /\ fst (fst (pivot_validate_dataframe df))
     = is_some (snd (pivot_validate_dataframe df))
  /\ (fst (fst (pivot_validate_dataframe df)) = true ->
      exists d s, find_columns (columns df) = Ok (Some d, Some s)).
Proof.
  unfold pivot_validate_dataframe.
  destruct (validate_body df) as [r|e] eqn:E.
  - destruct (body_outcome df r E) as [[(Hok & Hagg & Hnote) Hcols] | (Hok & Hagg & Hnote)].
    + split; [left; repeat split; assumption|]. split; [congruence | auto].
    + split; [right; repeat split; assumption|].
      split; [rewrite Hok, Hagg; reflexivity | congruence].
  - split; [right; repeat split; apply error_note_not_empty|].
    split; [reflexivity | discriminate].
Qed.

(** X21: stripping a column name never changes whether it matches: the
    date test and the sales test give the same answer on the stripped
    lowercased name as on the lowercased name. *)
Theorem strip_never_changes_column_test (name : string) :
  is_date_name (lower (strip name)) = is_date_name (lower name)
  /\ is_sales_name (lower (strip name)) = is_sales_name (lower name)
  /\ (forall w : string,
         visible_word w = true ->
         str_in w (lower (strip name)) = str_in w (lower name)).
Proof.
  split; [|split].
  - unfold is_date_name. now rewrite str_in_lower_strip.
  - unfold is_sales_name. now rewrite !str_in_lower_strip.
  - intros w. apply str_in_lower_strip.
Qed.

(** ** Normalization *)

Section NormalizeFacts.

Lemma re_sub_ws_idem (s : string) : re_sub_ws (re_sub_ws s) = re_sub_ws s.
Proof.
  induction s as [|c s IH]; [reflexivity|]. simpl.
  destruct (is_space c) eqn:Hc; [exact IH|]. simpl. now rewrite Hc, IH.
Qed.

Lemma normalize_idem (ans : option string) :
  normalize (Some (normalize ans)) = normalize ans.
Proof.
  unfold normalize, upper. simpl or_empty.
  rewrite (re_sub_ws_smap _ _ is_space_upper), re_sub_ws_idem.
  apply smap_smap, upper_upper_ascii.
Qed.

Lemma upper_not_lower (c c' : ascii) :
  is_lower_letter c = true -> c <> upper_ascii c'.
Proof.
  intros H E. subst c. revert H.
  destruct c' as [[] [] [] [] [] [] [] []]; vm_compute; discriminate.
Qed.

Lemma normalize_no_lower (ans : option string) (c : ascii) :
  is_lower_letter c = true -> str_in (String c EmptyString) (normalize ans) = false.
Proof.
  intros Hc. unfold normalize.
  induction (re_sub_ws (or_empty ans)) as [|c' s IH]; [reflexivity|].
  simpl. fold (upper s).
  destruct (ascii_dec c (upper_ascii c')) as [E|_]; [|exact IH].
  exfalso. exact (upper_not_lower c c' Hc E).
Qed.

End NormalizeFacts.

(** X22: the normalized answer holds no whitespace and no lowercase letter,
    normalizing it again changes nothing, and a formula question gives the
    normalized answer the grade of the answer itself. *)
Theorem normalize_is_canonical (ans : option string) :
  normalize (Some (normalize ans)) = normalize ans
  /\ (forall c, is_space c = true ->
                str_in (String c EmptyString) (normalize ans) = false)
  /\ (forall c, is_lower_letter c = true ->
                str_in (String c EmptyString) (normalize ans) = false)
  /\ (forall q, In (id q) formula_ids ->
                grade q (Some (normalize ans)) = grade q ans).
Proof.
  split; [apply normalize_idem|].
  split; [intros c; apply normalize_no_space|].
  split; [intros c; apply normalize_no_lower|].
  intros q Hq. apply grade_formula_ext; [exact Hq | apply normalize_idem].
Qed.

(** ** Binary64 scores, continued *)

(** X23: every score [grade] returns is an entry of the table of producible
    scores, and on that entry the binary64 number Python computes passes the
    four threshold tests (High, Medium, weakness, review) exactly as the
    rational does. *)
Theorem binary64_tests_agree (q : question) (ans : option string) :
  exists f : float,
    In (f, fst (grade q ans)) Binary64.produced
    /\ Binary64.same_tests (f, fst (grade q ans)).
Proof.
  pose proof (grade_score_produced q ans) as Hin.
  apply in_map_iff in Hin as ([f v] & E & Hin). simpl in E. subst v.
  exists f. split; [exact Hin|].
  pose proof produced_scores_agree as H. rewrite Forall_forall in H.
  exact (H _ (proj2 (list_elem_of_In _ _) Hin)).
Qed.

(** ** Column discovery and overall score, continued *)

Section UniqueMatch.

Lemma first_match_some (p : label -> bool) (pre post : list label) (c : label) :
  p c = true -> (forall x, In x pre -> p x = false) ->
  first_match p (pre ++ c :: post) = Some c.
Proof.
  intros Hc Hpre. unfold first_match.
  induction pre as [|x pre IH]; simpl; [now rewrite Hc|].
  rewrite (Hpre x (or_introl eq_refl)). apply IH.
  intros y Hy. apply Hpre. now right.
Qed.

End UniqueMatch.

(** X24: when exactly one column name contains the word date (respectively
    sales, amount or revenue), that column is the one selected: with a
    single match the first and the last match are the same column. *)
Theorem single_match_is_selected (cols : list label) :
  forallb is_text cols = true ->
  (forall pre c post,
      cols = (pre ++ c :: post)%list -> is_date_column c = true ->
      (forall x, In x pre -> is_date_column x = false) ->
      (forall x, In x post -> is_date_column x = false) ->
      (exists s, find_columns cols = Ok (Some c, s))
      /\ first_match is_date_column cols = Some c)
  /\ (forall pre c post,
         cols = (pre ++ c :: post)%list -> is_sales_column c = true ->
         (forall x, In x pre -> is_sales_column x = false) ->
         (forall x, In x post -> is_sales_column x = false) ->
         (exists d, find_columns cols = Ok (d, Some c))
         /\ first_match is_sales_column cols = Some c).
Proof.
  intros Ht. rewrite (find_columns_text cols Ht). split.
  - intros pre c post E Hc Hpre Hpost. split.
    + exists (last_match is_sales_column cols). f_equal. f_equal.
      apply last_match_some. exists pre, post. auto.
    + rewrite E. now apply first_match_some.
  - intros pre c post E Hc Hpre Hpost. split.
    + exists (last_match is_date_column cols). f_equal. f_equal.
      apply last_match_some. exists pre, post. auto.
    + rewrite E. now apply first_match_some.
Qed.

Lemma single_match_is_selected_witness :
  let cols := [LStr "OrderDate"; LStr "Region"; LStr "SalesAmount"] in
  forallb is_text cols = true
  /\ first_match is_date_column cols = Some (LStr "OrderDate")
  /\ exists s, find_columns cols = Ok (Some (LStr "OrderDate"), s).
Proof.
  intros cols. split; [reflexivity|]. split; [reflexivity|].
  refine (proj1 (proj1 (single_match_is_selected cols eq_refl)
                   [] (LStr "OrderDate") [LStr "Region"; LStr "SalesAmount"]
                   eq_refl eq_refl _ _)).
  - intros x [].
  - intros x [<-|[<-|[]]]; reflexivity.
Defined.

Section OverallGrows.

Lemma round_half_even_mono (x y : Q) :
  (x <= y)%Q -> (round_half_even x <= round_half_even y)%Z.
Proof.
  intros Hxy. pose proof (Qfloor_resp_le x y Hxy) as Hf.
  unfold round_half_even.
  destruct (Z.eq_dec (Qfloor x) (Qfloor y)) as [E|Hne].
  - rewrite <- E.
    destruct (Qcompare_spec (x - inject_Z (Qfloor x)) (1 # 2)) as [Hx|Hx|Hx];
      destruct (Qcompare_spec (y - inject_Z (Qfloor x)) (1 # 2)) as [Hy|Hy|Hy];
      try destruct (Z.even (Qfloor x)); try lia; exfalso; lra.
  - assert (Qfloor x + 1 <= Qfloor y)%Z by lia.
    destruct (Qcompare (x - inject_Z (Qfloor x)) (1 # 2));
      destruct (Qcompare (y - inject_Z (Qfloor y)) (1 # 2));
      try destruct (Z.even (Qfloor x)); try destruct (Z.even (Qfloor y)); lia.
Qed.

Lemma round1_mono (x y : Q) : (x <= y)%Q -> (round1 x <= round1 y)%Q.
Proof.
  intros H. unfold round1. apply Qmult_le_compat_r; [|discriminate].
  rewrite <- Zle_Qle. apply round_half_even_mono.
  apply Qmult_le_compat_r; [exact H | discriminate].
Qed.

Lemma score_sum_mono (st st' : session) (qs : list question) (acc acc' : Q) :
  (forall q, In q qs -> (0 <= weight q)%Z) ->
  (forall q, In q qs -> (score_of st q <= score_of st' q)%Q) ->
  (acc <= acc')%Q ->
  (fold_left
     (fun acc q => acc + get (scores st) (id q) 0.0 * inject_Z (weight q)) qs acc
   <= fold_left
        (fun acc q => acc + get (scores st') (id q) 0.0 * inject_Z (weight q))
        qs acc')%Q.
Proof.
  revert acc acc'. induction qs as [|q qs IH]; intros acc acc' Hw Hs Ha; [exact Ha|].
  simpl fold_left. apply IH.
  - intros q' H. apply Hw. now right.
  - intros q' H. apply Hs. now right.
  - apply Qplus_le_compat; [exact Ha|].
    apply Qmult_le_compat_r; [apply (Hs q); now left|].
    change 0%Q with (inject_Z 0). rewrite <- Zle_Qle. apply Hw. now left.
Qed.

Lemma bank_weights_nonneg (q : question) : In q QUESTIONS -> (0 <= weight q)%Z.
Proof.
  intros Hq. unfold QUESTIONS in Hq. simpl in Hq.
  repeat (destruct Hq as [<- | Hq]); try contradiction; simpl; lia.
Qed.

Lemma overall_of_mono (st st' : session) :
  (forall q, In q QUESTIONS -> (score_of st q <= score_of st' q)%Q) ->
  (overall_of QUESTIONS st <= overall_of QUESTIONS st')%Q.
Proof.
  intros Hs. unfold overall_of. change (total_w_of QUESTIONS) with 23%Z.
  cbv beta iota zeta. change (23 =? 0)%Z with false. cbv iota.
  apply round1_mono. apply Qmult_le_l; [reflexivity|].
  apply Qmult_le_compat_r; [|discriminate].
  apply score_sum_mono; [apply bank_weights_nonneg | exact Hs | apply Qle_refl].
Qed.

End OverallGrows.

(** X25: answering never lowers the overall score: in a reachable session,
    the overall score after a Submit or a Skip is at least the overall score
    before it. *)
Theorem overall_never_decreases (acts : list action) (a : action) :
  is_answer a = true ->
  (overall_of QUESTIONS (run acts) <= overall_of QUESTIONS (handle (run acts) a))%Q.
Proof.
  intros Ha. apply overall_of_mono. intros q Hq.
  pose proof (run_well_run acts) as Hwr.
  pose proof (handle_well_run (run acts) a Hwr) as Hwr'.
  destruct (run_consistent acts) as [Hd1 _].
  set (st := run acts) in *.
  unfold score_of at 1. unfold get.
  destruct (scores st !! id q) as [v|] eqn:E.
  - assert (E' : scores (handle st a) !! id q = Some v).
    { destruct Hwr as (_ & Hr & _).
      assert (Hin : In (id q) (map id (asked st))).
      { apply Hr. rewrite <- elem_of_dom, Hd1, elem_of_dom. eauto. }
      destruct a as [|answer pn|]; [discriminate| |]; simpl;
        destruct (current_question st) as [q0|] eqn:Hq0; try exact E.
      - unfold submit. destruct (grade q0 (Some answer)). simpl.
        rewrite lookup_insert_ne; [exact E|].
        intros Heq. apply (current_id_fresh st q0 Hq0). now rewrite Heq.
      - unfold skip. simpl. rewrite lookup_insert_ne; [exact E|].
        intros Heq. apply (current_id_fresh st q0 Hq0). now rewrite Heq. }
    unfold score_of, get. rewrite E'. apply Qle_refl.
  - apply Qle_trans with 0%Q; [discriminate|].
    apply (score_of_unit (handle st a) Hwr' q).
Qed.

Lemma overall_never_decreases_witness :
  let acts := [Start; Skip] in
  is_answer (Submit "COUNTA(D2:D100)" None) = true
  /\ overall_of QUESTIONS (run acts) = 0.0%Q
  /\ overall_of QUESTIONS (handle (run acts) (Submit "XLOOKUP" None)) = 8.7%Q
  /\ (overall_of QUESTIONS (run acts)
      <= overall_of QUESTIONS (handle (run acts) (Submit "XLOOKUP" None)))%Q.
Proof.
  intros acts. split; [reflexivity|]. split; [vm_compute; reflexivity|].
  split; [vm_compute; reflexivity|].
  exact (overall_never_decreases acts (Submit "XLOOKUP" None) eq_refl).
Defined.
